(** * webpage_scraper2.py: article extraction, plain-text composition and
      PDF layout

    A shallow embedding of the core of [webpage_scraper2.py]:
    [fetch_html], [extract_more_elements], [split_text_to_lines],
    [create_pdf] and the plain-text part of [ScraperGUI._worker].

    Conventions.
    - A Python [str] is a [string]; a character of type [ascii] stands for
      a code point below 256.
    - Lengths and coordinates that Python computes in floating point are
      computed here exactly, in [Q].
    - Calls that leave the program (HTTP, the HTML parser, readability,
      the headless browser, image decoding, font metrics) are inputs of the
      functions that make them; a call that can raise has an outcome type
      that says so. *)

From Stdlib Require Import List String Ascii Bool Arith NArith ZArith QArith Lia Lqa.
From Stdlib Require Import DecimalString DecimalN.
Import ListNotations.

Set Warnings "-register-all".

Local Close Scope Q_scope.
Local Open Scope string_scope.
Local Open Scope list_scope.

(** ** Python string primitives *)

Module Py.

(** [str.isspace] on one character: the code points below 256 that Python
    counts as whitespace (TAB..CR, FS..US, SPACE, NEL, NBSP). *)
Definition is_space (c : ascii) : bool :=
  let n := N_of_ascii c in
  (((9 <=? n) && (n <=? 13)) || ((28 <=? n) && (n <=? 32))
   || (n =? 133) || (n =? 160))%N.

Definition is_empty (s : string) : bool :=
  match s with EmptyString => true | String _ _ => false end.

(** Truth value of a [str]: non-empty. *)
Definition truthy (s : string) : bool := negb (is_empty s).

Fixpoint lstrip (s : string) : string :=
  match s with
  | EmptyString => EmptyString
  | String c r => if is_space c then lstrip r else s
  end.

Fixpoint rstrip (s : string) : string :=
  match s with
  | EmptyString => EmptyString
  | String c r =>
      match rstrip r with
      | EmptyString => if is_space c then EmptyString else String c EmptyString
      | r' => String c r'
      end
  end.

(** [s.strip()] *)
Definition strip (s : string) : string := rstrip (lstrip s).

Definition flush (cur : string) : list string :=
  if is_empty cur then [] else [cur].

(** The left-to-right scan behind [s.split()]: [cur] is the word being
    read. *)
Fixpoint split_from (cur s : string) : list string :=
  match s with
  | EmptyString => flush cur
  | String c r =>
      if is_space c then flush cur ++ split_from EmptyString r
      else split_from (cur ++ String c EmptyString) r
  end.

(** [s.split()]: the maximal runs of non-whitespace characters. *)
Definition split (s : string) : list string := split_from EmptyString s.

(** [sep.join(parts)] *)
Definition join (sep : string) (parts : list string) : string :=
  String.concat sep parts.

Definition upper_char (c : ascii) : ascii :=
  let n := N_of_ascii c in
  if ((97 <=? n) && (n <=? 122))%N then ascii_of_N (n - 32) else c.

Definition lower_char (c : ascii) : ascii :=
  let n := N_of_ascii c in
  if ((65 <=? n) && (n <=? 90))%N then ascii_of_N (n + 32) else c.

Fixpoint map_chars (f : ascii -> ascii) (s : string) : string :=
  match s with
  | EmptyString => EmptyString
  | String c r => String (f c) (map_chars f r)
  end.

(** [s.upper()] and [s.lower()] on the letters a..z and A..Z; every other
    character is kept (case mappings outside ASCII are not modelled). *)
Definition upper : string -> string := map_chars upper_char.
Definition lower : string -> string := map_chars lower_char.

(** [sub in s] *)
Fixpoint contains (sub s : string) : bool :=
  String.prefix sub s ||
  match s with
  | EmptyString => false
  | String _ r => contains sub r
  end.

Definition len (s : string) : nat := String.length s.

(** A word: what [split] returns, a non-empty run without whitespace. *)
Fixpoint no_space (s : string) : bool :=
  match s with
  | EmptyString => true
  | String c r => negb (is_space c) && no_space r
  end.

Definition word (w : string) : Prop := w <> EmptyString /\ no_space w = true.

End Py.

(** ** Text measurement and line wrapping *)

(** The advance width of every glyph of every font, in thousandths of the
    font size: the tables [reportlab.pdfbase.pdfmetrics] keeps per font.
    No glyph has a negative width. *)
Definition font_metrics : Type := string -> ascii -> N.

Section Wrapping.

Variable metrics : font_metrics.

Fixpoint glyph_sum (fontname text : string) : N :=
  match text with
  | EmptyString => 0%N
  | String c r => (metrics fontname c + glyph_sum fontname r)%N
  end.

(** [pdfmetrics.stringWidth]: the glyph widths added up and scaled by the
    font size. *)
Definition stringWidth (text fontname : string) (fontsize : Q) : Q :=
  (inject_Z (Z.of_N (glyph_sum fontname text)) * (1 # 1000) * fontsize)%Q.

(** The [for w in words] loop of [split_text_to_lines], with its two
    variables [lines] and [cur]; the last match arm is the [if cur] after
    the loop. *)
Fixpoint wrap_loop (fontname : string) (fontsize max_width : Q)
    (words lines : list string) (cur : string) : list string :=
  match words with
  | [] => if Py.truthy cur then lines ++ [cur] else lines
  | w :: rest =>
      let candidate := Py.strip ((cur ++ " ") ++ w)%string in
      if Qle_bool (stringWidth candidate fontname fontsize) max_width
      then wrap_loop fontname fontsize max_width rest lines candidate
      else wrap_loop fontname fontsize max_width rest
             (if Py.truthy cur then lines ++ [cur] else lines) w
  end.

Definition split_text_to_lines (text fontname : string)
    (fontsize max_width : Q) : list string :=
  wrap_loop fontname fontsize max_width (Py.split text) [] "".

End Wrapping.

(** ** The parsed document *)

(** What [BeautifulSoup(html, "lxml")] builds: elements with their
    attributes and children, text ([NavigableString]), and the strings that
    [get_text] skips (comments, declarations).  The [BeautifulSoup] object
    itself is the element named [[document]]. *)
Inductive dom : Type :=
| Tag (name : string) (attrs : list (string * string)) (children : list dom)
| Text (s : string)
| Comment (s : string).

Definition document (children : list dom) : dom :=
  Tag "[document]" [] children.

(** [getattr(el, "name", None)] *)
Definition tag_name (el : dom) : option string :=
  match el with
  | Tag name _ _ => Some name
  | _ => None
  end.

Fixpoint lookup (key : string) (attrs : list (string * string)) : option string :=
  match attrs with
  | [] => None
  | (k, v) :: rest => if String.eqb k key then Some v else lookup key rest
  end.

(** [el.get(key)] *)
Definition get (el : dom) (key : string) : option string :=
  match el with
  | Tag _ attrs _ => lookup key attrs
  | _ => None
  end.

(** Truth value of an attribute that may be missing: present and
    non-empty. *)
Definition nonempty_attr (v : option string) : option string :=
  match v with
  | Some s => if Py.truthy s then Some s else None
  | None => None
  end.

(** [a or b] on two optional values. *)
Definition or_else {A : Type} (a b : option A) : option A :=
  match a with
  | Some _ => a
  | None => b
  end.

(** The elements below [el] in document order, each with its parent. *)
Fixpoint walk (el : dom) : list (dom * dom) :=
  match el with
  | Tag _ _ children => flat_map (fun c => (el, c) :: walk c) children
  | _ => []
  end.

(** [el.descendants] *)
Definition descendants (el : dom) : list dom := map snd (walk el).

Definition named (names : list string) (el : dom) : bool :=
  match tag_name el with
  | Some n => existsb (String.eqb n) names
  | None => false
  end.

(** [el.find_all(names)] and [el.find(name)] *)
Definition find_all (names : list string) (el : dom) : list dom :=
  filter (named names) (descendants el).

Definition find (name : string) (el : dom) : option dom :=
  hd_error (find_all [name] el).

(** [soup.find("meta", {attr: key})] *)
Definition find_meta (attr key : string) (soup : dom) : option dom :=
  hd_error
    (filter (fun el => match get el attr with
                       | Some v => String.eqb v key
                       | None => false
                       end)
            (find_all ["meta"] soup)).

(** The strings [get_text(strip=True)] collects: every text below [el],
    stripped, the empty ones left out. *)
Definition stripped_strings (el : dom) : list string :=
  flat_map (fun d => match d with
                     | Text s => Py.flush (Py.strip s)
                     | _ => []
                     end)
           (descendants el).

(** [el.get_text(separator, strip=True)] *)
Definition get_text (separator : string) (el : dom) : string :=
  Py.join separator (stripped_strings el).

(** [el.string]: the only child when it is a string, looked for through
    only children. *)
Fixpoint dot_string (el : dom) : option string :=
  match el with
  | Tag _ _ [c] =>
      match c with
      | Text s | Comment s => Some s
      | Tag _ _ _ => dot_string c
      end
  | _ => None
  end.

(** The four selectors [extract_more_elements] passes to [select_one].
    [rel] and [class] are whitespace-separated lists in BeautifulSoup:
    [[rel=author]] compares the list joined by single spaces, a class
    selector looks for one of the classes. *)
Inductive selector : Type :=
| AttrIs (attr value : string)
| HasClass (cls : string).

Definition multi_valued (attr : string) : bool :=
  String.eqb attr "rel" || String.eqb attr "class".

Definition selects (sel : selector) (el : dom) : bool :=
  match sel, el with
  | AttrIs attr value, Tag _ _ _ =>
      match get el attr with
      | Some v =>
          String.eqb
            (if multi_valued attr then Py.join " " (Py.split v) else v) value
      | None => false
      end
  | HasClass cls, Tag _ _ _ =>
      match get el "class" with
      | Some v => existsb (String.eqb cls) (Py.split v)
      | None => false
      end
  | _, _ => false
  end.

(** [soup.select_one(sel)] *)
Definition select_one (sel : selector) (soup : dom) : option dom :=
  hd_error (filter (selects sel) (descendants soup)).

(** ** Extraction *)

(** The entries of the node stream: [("heading", text, el.name)],
    [("paragraph", text, None)] and [("image", url, caption)]. *)
Inductive content_node : Type :=
| Heading (text level : string)
| Paragraph (text : string)
| Image (src caption : string).

(** The dictionary [out] that [extract_more_elements] returns. *)
Record article : Type := {
  title : string;
  author : string;
  date : string;
  tags : string;
  lead_image : string;
  nodes : list content_node
}.

(** What the [if HAS_READABILITY: try: ...] block does with the markup. *)
Inductive readability_outcome : Type :=
| ReadabilityMissing
| ReadabilityRaised
| ReadabilitySummary (content_soup : dom) (short_title : string).

Section Extraction.

(** [BeautifulSoup(html, "lxml")], the readability block and
    [urllib.parse.urljoin]. *)
Variable parse_html : string -> dom.
Variable readability : string -> readability_outcome.
Variable urljoin : string -> string -> string.

(** [soup.find("meta", {"name": key}) or soup.find("meta", {"property": key})] *)
Definition meta_tag (soup : dom) (key : string) : option dom :=
  or_else (find_meta "name" key soup) (find_meta "property" key soup).

(** [tag and tag.get("content")] *)
Definition meta_content (soup : dom) (key : string) : option string :=
  match meta_tag soup key with
  | Some tag => nonempty_attr (get tag "content")
  | None => None
  end.

(** The [for key in (...)] loops over metadata names: the first key whose
    tag has content ends the loop with that content, stripped. *)
Fixpoint first_meta (soup : dom) (keys : list string) : option string :=
  match keys with
  | [] => None
  | key :: rest =>
      match meta_content soup key with
      | Some content => Some (Py.strip content)
      | None => first_meta soup rest
      end
  end.

(** [not v] for a value that is [None] or a string. *)
Definition falsy (v : option string) : bool :=
  match v with
  | Some s => Py.is_empty s
  | None => true
  end.

(** [v or ""] *)
Definition or_empty (v : option string) : string :=
  match v with
  | Some s => s
  | None => ""
  end.

Definition extract_title (soup : dom) : string :=
  match find "title" soup with
  | Some t =>
      match dot_string t with
      | Some s => if Py.truthy s then Py.strip s else ""
      | None => ""
      end
  | None => ""
  end.

Definition extract_author (soup : dom) : string :=
  let author := first_meta soup ["author"; "article:author"; "og:article:author"; "byline"] in
  let author :=
    if falsy author then
      let sel :=
        or_else (select_one (AttrIs "rel" "author") soup)
          (or_else (select_one (HasClass "author") soup)
             (or_else (select_one (HasClass "byline") soup)
                (select_one (AttrIs "itemprop" "author") soup))) in
      match sel with
      | Some el => Some (get_text "" el)
      | None => author
      end
    else author in
  or_empty author.

Definition extract_date (soup : dom) : string :=
  let date := first_meta soup ["article:published_time"; "pubdate"; "publishdate"; "date"] in
  let date :=
    if falsy date then
      match find "time" soup with
      | Some time_tag =>
          match nonempty_attr (get time_tag "datetime") with
          | Some d => Some (Py.strip d)
          | None => Some (get_text "" time_tag)
          end
      | None => date
      end
    else date in
  or_empty date.

Definition extract_tags (soup : dom) : string :=
  match find_meta "name" "keywords" soup with
  | Some tagm =>
      match nonempty_attr (get tagm "content") with
      | Some c => Py.strip c
      | None => ""
      end
  | None => ""
  end.

(** [el.get("src") or el.get("data-src") or el.get("data-original")],
    tested for truth. *)
Definition image_source (img : dom) : option string :=
  or_else (nonempty_attr (get img "src"))
    (or_else (nonempty_attr (get img "data-src"))
       (nonempty_attr (get img "data-original"))).

Fixpoint first_source (imgs : list dom) : option string :=
  match imgs with
  | [] => None
  | img :: rest =>
      match image_source img with
      | Some src => Some src
      | None => first_source rest
      end
  end.

Definition extract_lead_image (soup : dom) (base_url : string) : string :=
  let og := or_else (find_meta "property" "og:image" soup)
                    (find_meta "name" "og:image" soup) in
  match match og with
        | Some tag => nonempty_attr (get tag "content")
        | None => None
        end with
  | Some content => urljoin base_url content
  | None =>
      match first_source (firstn 30 (find_all ["img"] soup)) with
      | Some src => urljoin base_url src
      | None => ""
      end
  end.

(** The scan for the container with the longest text: [best] and
    [max_len] are the loop's variables. *)
Fixpoint longest_text (candidates : list dom) (best : dom) (max_len : nat) : dom :=
  match candidates with
  | [] => best
  | c :: rest =>
      let txt := get_text " " c in
      if Nat.ltb max_len (Py.len txt) then longest_text rest c (Py.len txt)
      else longest_text rest best max_len
  end.

Definition fallback_content (soup : dom) : dom :=
  match or_else (find "article" soup) (find "main" soup) with
  | Some candidate => candidate
  | None =>
      let best := match find "body" soup with Some b => b | None => soup end in
      longest_text (find_all ["div"; "section"] soup) best 0
  end.

(** One step of [for el in main_content.descendants]: the nodes that the
    element [el], whose parent is [parent], appends. *)
Definition node_of (base_url : string) (parent el : dom) : list content_node :=
  if named ["h1"; "h2"; "h3"; "h4"] el then
    let t := get_text "" el in
    if Py.truthy t then [Heading t (or_empty (tag_name el))] else []
  else if named ["p"; "blockquote"; "li"] el then
    let t := get_text "" el in
    if Py.truthy t && Nat.ltb 10 (Py.len t) then [Paragraph t] else []
  else if named ["img"] el then
    match image_source el with
    | Some src =>
        let absu := urljoin base_url src in
        let caption :=
          match find "figcaption" parent with
          | Some cap => get_text "" cap
          | None => ""
          end in
        let caption :=
          if Py.truthy caption then caption else or_empty (nonempty_attr (get el "alt")) in
        [Image absu caption]
    | None => []
    end
  else [].

Definition build_nodes (base_url : string) (main_content : dom) : list content_node :=
  flat_map (fun pe => node_of base_url (fst pe) (snd pe)) (walk main_content).

Definition extract_more_elements (html base_url : string) : article :=
  let soup := parse_html html in
  let out_title := extract_title soup in
  let '(main_content, out_title) :=
    match readability html with
    | ReadabilitySummary content_soup title_r =>
        (Some content_soup, if Py.truthy title_r then title_r else out_title)
    | ReadabilityRaised | ReadabilityMissing => (None, out_title)
    end in
  let main_content :=
    match main_content with
    | Some m => m
    | None => fallback_content soup
    end in
  {| title := out_title;
     author := extract_author soup;
     date := extract_date soup;
     tags := extract_tags soup;
     lead_image := extract_lead_image soup base_url;
     nodes := build_nodes base_url main_content |}.

End Extraction.

(** ** Fetching *)

(** The outcome of a Python call: a value, or an exception on its way
    up. *)
Inductive result (A : Type) : Type :=
| Returns (a : A)
| Raises.

Arguments Returns {A} a.
Arguments Raises {A}.

Definition bind {A B : Type} (m : result A) (k : A -> result B) : result B :=
  match m with
  | Returns a => k a
  | Raises => Raises
  end.

(** [try: body  except Exception: handler] *)
Definition try_except {A : Type} (body handler : result A) : result A :=
  match body with
  | Returns a => Returns a
  | Raises => handler
  end.

Notation "x <- m ;; k" := (bind m (fun x => k))
  (at level 61, m at next level, right associativity).
Notation "' p <- m ;; k" := (bind m (fun p => k))
  (at level 61, p pattern, m at next level, right associativity).

Definition js_heavy_sites : list string :=
  ["tesla.com"; "twitter.com"; "instagram.com"; "facebook.com"; "youtube.com"].

Section Fetching.

(** The calls that leave the program.
    - [http_get url timeout]: [session.get], [raise_for_status] and the
      reading of [resp.text] and [resp.url].
    - [urlparse_netloc url]: [urlparse(url).netloc].
    - [playwright_render url timeout]: the body of the second [try] down
      to [browser.close()], which gives [page.content()] and [page.url];
      it raises when Playwright is not installed or any of its calls,
      the closing of the [with] block included, fails. *)
Variable http_get : string -> Z -> result (string * string).
Variable urlparse_netloc : string -> result string.
Variable playwright_render : string -> Z -> result (string * string).

(** The three tests on the fetched text ([None] when the request
    failed). *)
Definition too_thin (text : option string) : bool :=
  match text with
  | None => true
  | Some t => Nat.ltb (Py.len (Py.strip t)) 800
  end.

Definition script_marker (text : option string) : bool :=
  let t := Py.lower (match text with Some t => t | None => "" end) in
  Py.contains "<noscript" t || Py.contains "javascript required" t.

Definition need_render (text : option string) (url : string) : result bool :=
  let need_render := false in
  let need_render :=
    if too_thin text then true
    else if script_marker text then true
    else need_render in
  try_except
    (netloc <- urlparse_netloc url ;;
     let domain := Py.lower netloc in
     Returns (if existsb (fun d => Py.contains d domain) js_heavy_sites
              then true else need_render))
    (Returns need_render).

Definition fetch_html (url : string) (timeout : Z)
    (try_playwright_if_needed : bool) : result (string * string) :=
  ' (text, final_url) <-
      try_except
        (' (resp_text, resp_url) <- http_get url timeout ;;
         Returns (Some resp_text, resp_url))
        (Returns (None, url)) ;;
  need <- need_render text url ;;
  rendered <-
    (if need && try_playwright_if_needed then
       try_except
         (' (rendered, final) <- playwright_render url timeout ;;
          Returns (if Py.truthy rendered
                      && Nat.ltb 200 (Py.len (Py.strip rendered))
                   then Some (rendered, final) else None))
         (Returns None)
     else Returns None) ;;
  match rendered with
  | Some page => Returns page
  | None =>
      Returns (match text with Some t => t | None => "" end,
               if Py.truthy final_url then final_url else url)
  end.

End Fetching.

(** ** Plain text *)

Definition newline : string := String (ascii_of_nat 10) EmptyString.

(** What the [if]/[elif] chain of the node loop appends for one node. *)
Definition node_lines (node : content_node) : list string :=
  match node with
  | Heading text _ => [Py.upper text]
  | Paragraph text => [text]
  | Image src caption =>
      ["[Image: " ++ src ++ "]"]%string
      ++ (if Py.truthy caption then ["Caption: " ++ caption]%string else [])
  end.

(** The list [text_parts] that [_worker] builds. *)
Definition text_parts (meta : article) : list string :=
  let text_parts := [] in
  let text_parts :=
    if Py.truthy (title meta) then text_parts ++ [title meta] ++ [""]
    else text_parts in
  let text_parts :=
    if Py.truthy (author meta) then text_parts ++ ["By " ++ author meta]%string
    else text_parts in
  let text_parts :=
    if Py.truthy (date meta) then text_parts ++ ["Published: " ++ date meta]%string
    else text_parts in
  let text_parts :=
    if Py.truthy (tags meta) then text_parts ++ ["Tags: " ++ tags meta]%string
    else text_parts in
  let text_parts := text_parts ++ [""] in
  fold_left (fun parts node => (parts ++ node_lines node) ++ [""])
    (nodes meta) text_parts.

(** [full_text = "\n".join(text_parts).strip()] *)
Definition full_text (meta : article) : string :=
  Py.strip (Py.join newline (text_parts meta)).

(** ** PDF layout *)

(** The calls made on the canvas, in order. *)
Inductive canvas_op : Type :=
| SetFont (fontname : string) (size : Q)
| ShowPage
| DrawString (x y : Q) (text : string)
| DrawImage (x y width height : Q)
| Save.

(** What becomes of an image node's URL: the download fails, or
    [Image.open] or [convert] raises, or the image opens with size
    [(iw, ih)]; [drawable] is false when [ImageReader] or [drawImage]
    raises. *)
Inductive image_file : Type :=
| NotDownloaded
| NotDecoded
| Decoded (iw ih : N) (drawable : bool).

Definition Qltb (a b : Q) : bool := negb (Qle_bool b a).

(** [min(a, b)] on numbers: [b] when it is smaller, else [a]. *)
Definition py_min (a b : Q) : Q := if Qltb b a then b else a.

(** [reportlab.lib.pagesizes.A4]: 210 mm by 297 mm in points of 1/72
    inch. *)
Definition A4 : Q * Q := (75600 # 127, 106920 # 127)%Q.

Section Rendering.

Variable metrics : font_metrics.
(** Whether [register_dejavu] finds and registers a DejaVuSans file. *)
Variable dejavu_registered : bool.
(** [download_image_local] followed by [Image.open]. *)
Variable image_at : string -> image_file.

Definition register_dejavu : string :=
  if dejavu_registered then "DejaVuSans" else "Helvetica".

Variable pagesize : Q * Q.

Definition PAGE_W : Q := fst pagesize.
Definition PAGE_H : Q := snd pagesize.
Definition margin : Q := 28.
Definition usable_w : Q := (PAGE_W - 2 * margin)%Q.
Definition page_top : Q := (PAGE_H - margin)%Q.

(** The canvas [c] and the cursor [y]. *)
Definition pen : Type := (list canvas_op * Q)%type.

(** The loop that every text block runs over its lines:
    [if y < threshold: c.showPage(); y = PAGE_H - margin], then
    [c.drawString(x, y, line)] and [y -= advance]. *)
Fixpoint draw_lines (x threshold advance : Q) (lines : list string) (p : pen) : pen :=
  match lines with
  | [] => p
  | line :: rest =>
      let '(c, y) := p in
      let '(c, y) :=
        if Qltb y threshold then (c ++ [ShowPage], page_top) else (c, y) in
      let c := c ++ [DrawString x y line] in
      draw_lines x threshold advance rest (c, (y - advance)%Q)
  end.

Definition draw_title (meta : article) (p : pen) : pen :=
  let fontname := register_dejavu in
  let x := margin in
  if Py.truthy (title meta) then
    let '(c, y) := p in
    let c := c ++ [SetFont fontname 18] in
    let title_lines := split_text_to_lines metrics (title meta) fontname 18 usable_w in
    let '(c, y) := draw_lines x (margin + 40)%Q 22 title_lines (c, y) in
    (c, (y - 6)%Q)
  else p.

Definition info (meta : article) : list string :=
  (if Py.truthy (author meta) then ["By " ++ author meta]%string else [])
  ++ (if Py.truthy (date meta) then [date meta] else [])
  ++ (if Py.truthy (tags meta) then ["Tags: " ++ tags meta]%string else []).

Definition draw_info (meta : article) (p : pen) : pen :=
  let fontname := register_dejavu in
  let x := margin in
  match info meta with
  | [] => p
  | _ :: _ =>
      let '(c, y) := p in
      let c := c ++ [SetFont fontname 9] in
      let line := Py.join "  |  " (info meta) in
      let '(c, y) :=
        if Qltb y (margin + 20)%Q then (c ++ [ShowPage], page_top) else (c, y) in
      let c := c ++ [DrawString x y line] in
      (c, (y - 16 - 6)%Q)
  end.

Definition draw_caption (caption : string) (p : pen) : pen :=
  let fontname := register_dejavu in
  let x := margin in
  if Py.truthy caption then
    let '(c, y) := p in
    let c := c ++ [SetFont fontname 9] in
    let cap_lines := split_text_to_lines metrics caption fontname 9 usable_w in
    let '(c, y) := draw_lines (x + 4)%Q (margin + 12)%Q 11 cap_lines (c, y) in
    (c, (y - 6)%Q)
  else p.

(** One pass of [for node in nodes].  In the image branch every exit
    before the end is an exception caught by [except Exception: pass]:
    what was done before it stays done. *)
Definition draw_node (node : content_node) (p : pen) : pen :=
  let fontname := register_dejavu in
  let x := margin in
  let '(c, y) := p in
  match node with
  | Heading txt level =>
      let size := (if String.eqb level "h1" then 14 else 12)%Q in
      let c := c ++ [SetFont fontname size] in
      let lines := split_text_to_lines metrics txt fontname size usable_w in
      let '(c, y) := draw_lines x (margin + size * 2)%Q (size + 2)%Q lines (c, y) in
      (c, (y - 6)%Q)
  | Paragraph txt =>
      let size := 11%Q in
      let c := c ++ [SetFont fontname size] in
      let lines := split_text_to_lines metrics txt fontname size usable_w in
      let '(c, y) := draw_lines x (margin + size * 2)%Q (size + 2)%Q lines (c, y) in
      (c, (y - 8)%Q)
  | Image img_url caption =>
      match image_at img_url with
      | NotDownloaded | NotDecoded => (c, y)
      | Decoded iw ih drawable =>
          if N.eqb iw 0 then (c, y)
          else
            let display_w := py_min usable_w (inject_Z (Z.of_N iw)) in
            let display_h :=
              (display_w * (inject_Z (Z.of_N ih) / inject_Z (Z.of_N iw)))%Q in
            let '(c, y) :=
              if Qltb (y - display_h)%Q margin then (c ++ [ShowPage], page_top)
              else (c, y) in
            if drawable then
              let c := c ++ [DrawImage x (y - display_h)%Q display_w display_h] in
              let y := (y - (display_h + 6))%Q in
              draw_caption caption (c, y)
            else (c, y)
      end
  end.

(** [create_pdf(path, meta, nodes, pagesize)]: the calls it makes on the
    canvas. *)
Definition create_pdf (meta : article) (nodes : list content_node) : list canvas_op :=
  let p : pen := ([], page_top) in
  let p := draw_title meta p in
  let p := draw_info meta p in
  let p := fold_left (fun p node => draw_node node p) nodes p in
  fst p ++ [Save].

End Rendering.

(** ** Output paths and image files *)

(** [s.endswith(suffix)] *)
Fixpoint endswith (s suffix : string) : bool :=
  String.eqb s suffix ||
  match s with
  | EmptyString => false
  | String _ r => endswith r suffix
  end.

Section OutputPaths.

(** [os.path.splitext] *)
Variable splitext : string -> string * string.

(** The path of the text file in [_worker]. *)
Definition txt_path (out_path : string) : string :=
  if endswith (Py.lower out_path) ".txt" then out_path
  else (fst (splitext out_path) ++ ".txt")%string.

(** The path of the PDF file in [_worker]. *)
Definition pdf_path (out_path : string) : string :=
  let pdf_path := out_path in
  if negb (endswith (Py.lower pdf_path) ".pdf")
  then (fst (splitext pdf_path) ++ ".pdf")%string
  else pdf_path.

End OutputPaths.

Section Download.

(** [hash(url)], the request for the image ([session.get] with
    [raise_for_status], giving the [content-type] header, [""] when it is
    missing, and the chunks of the body), [os.path.join], and whether
    opening the file and writing the chunks succeeds. *)
Variable py_hash : string -> Z.
Variable image_get : string -> result (string * list string).
Variable path_join : string -> string -> string.
Variable write_file : string -> list string -> bool.

Definition image_ext (ct : string) : string :=
  let ext := ".jpg" in
  if Py.contains "png" ct then ".png"
  else if Py.contains "gif" ct then ".gif"
  else ext.

(** [f"img_{abs(hash(url)) % (10**9)}{ext}"] *)
Definition image_name (url ext : string) : string :=
  ("img_"
   ++ NilEmpty.string_of_uint (N.to_uint (Z.to_N (Z.abs (py_hash url) mod 10 ^ 9)))
   ++ ext)%string.

Definition download_image_local (url tmpdir : string) : option string :=
  match image_get url with
  | Returns (ct, chunks) =>
      let path := path_join tmpdir (image_name url (image_ext ct)) in
      if write_file path chunks then Some path else None
  | Raises => None
  end.

End Download.

(** * The vocabulary of the properties *)

(** A string that begins, and one that ends, with a character that is not
    whitespace. *)
Definition starts_solid (s : string) : bool :=
  match s with
  | EmptyString => false
  | String c _ => negb (Py.is_space c)
  end.

Fixpoint ends_solid (s : string) : bool :=
  match s with
  | EmptyString => false
  | String c EmptyString => negb (Py.is_space c)
  | String _ r => ends_solid r
  end.

Definition solid (s : string) : Prop :=
  starts_solid s = true /\ ends_solid s = true.

(** What C2 asks of a node: a paragraph's trimmed text is longer than 10
    characters, a heading's trimmed text is not empty. *)
Definition passes_filter (node : content_node) : Prop :=
  match node with
  | Heading text _ => Py.strip text <> ""
  | Paragraph text => 10 < Py.len (Py.strip text) /\ Py.strip text <> ""
  | Image _ _ => True
  end.

(** The metadata part of [text_parts]: the lines before the node loop. *)
Definition meta_lines (meta : article) : list string :=
  (if Py.truthy (author meta) then ["By " ++ author meta]%string else [])
  ++ (if Py.truthy (date meta) then ["Published: " ++ date meta]%string else [])
  ++ (if Py.truthy (tags meta) then ["Tags: " ++ tags meta]%string else []).

Definition header_parts (meta : article) : list string :=
  (if Py.truthy (title meta) then [title meta; ""] else [])
  ++ meta_lines meta ++ [""].

(** The text of one node, and the text of the node loop: every node
    between two line ends. *)
Definition node_text (node : content_node) : string :=
  Py.join newline (node_lines node).

Definition nodes_text (nodes : list content_node) : string :=
  String.concat "" (map (fun n => newline ++ node_text n ++ newline)%string nodes).

(** The node stream of the round-trip scenario. *)
Definition scenario_paragraph : string :=
  "This is a long enough paragraph to pass the filter.".

Definition scenario_nodes : list content_node :=
  [Heading "Title" "h1"; Paragraph scenario_paragraph].

Definition scenario_article (t a d g : string) : article :=
  {| title := t; author := a; date := d; tags := g; lead_image := "";
     nodes := scenario_nodes |}.

(** [c * n] for a one-character string [c]. *)
Fixpoint replicate (n : nat) (c : ascii) : string :=
  match n with
  | O => EmptyString
  | S k => String c (replicate k c)
  end.

(** The four reasons of the decision policy. *)
Definition markup_empty (text : option string) : Prop :=
  text = None \/ text = Some "".

Definition markup_thin (text : option string) : Prop :=
  exists t, text = Some t /\ Py.len (Py.strip t) < 800.

Definition markup_script_gated (text : option string) : Prop :=
  exists t, text = Some t /\
    (Py.contains "<noscript" (Py.lower t) = true
     \/ Py.contains "javascript required" (Py.lower t) = true).

Definition host_listed (urlparse_netloc : string -> result string)
    (url : string) : Prop :=
  exists netloc d, urlparse_netloc url = Returns netloc
    /\ In d js_heavy_sites /\ Py.contains d (Py.lower netloc) = true.

(** The host test as [need_render] computes it; a failing [urlparse]
    leaves the decision as it was. *)
Definition host_match (urlparse_netloc : string -> result string)
    (url : string) : bool :=
  match urlparse_netloc url with
  | Returns netloc =>
      existsb (fun d => Py.contains d (Py.lower netloc)) js_heavy_sites
  | Raises => false
  end.

(** The host of the URLs used in the examples below, as [urlparse] gives
    it. *)
Definition example_netloc (url : string) : result string :=
  Returns "example.com".

(** 2000 characters of markup: 1300 spaces, then 700 letters. *)
Definition padded_markup : string :=
  (replicate 1300 " " ++ replicate 700 "a")%string.

(** What the fallback contributes: nothing when it is not asked for,
    raises, or delivers 200 characters or fewer after trimming. *)
Definition no_rendering (playwright_render : string -> Z -> result (string * string))
    (url : string) (timeout : Z) (try_playwright_if_needed : bool) : Prop :=
  try_playwright_if_needed = false
  \/ playwright_render url timeout = Raises
  \/ exists rendered final,
       playwright_render url timeout = Returns (rendered, final)
       /\ Py.len (Py.strip rendered) <= 200.

(** A page with an [article:author] meta tag and a [.byline] element. *)
Definition byline_page (meta_attrs : list (string * string)) (more_meta : list dom) : dom :=
  document
    [Tag "html" []
       [Tag "head" []
          (more_meta ++ [Tag "meta" meta_attrs []]);
        Tag "body" []
          [Tag "span" [("class", "byline")] [Text "Carol"]]]].

Definition empty_article : article :=
  {| title := ""; author := ""; date := ""; tags := ""; lead_image := "";
     nodes := [] |}.

(** The readability block gave no summary: the library is missing or a
    call raised, as [summary()] does on empty input. *)
Definition readability_failed (r : readability_outcome) : Prop :=
  r = ReadabilityMissing \/ r = ReadabilityRaised.

(** A line of text is drawn where the cursor is, at least 12 points
    above the bottom margin, or at the top margin of a new page. *)
Definition placed (pagesize : Q * Q) (op : canvas_op) : Prop :=
  match op with
  | DrawString _ y _ => (margin + 12 <= y)%Q \/ y = page_top pagesize
  | _ => True
  end.

(** A line of text is drawn with its baseline at least 12 points above
    the bottom margin. *)
Definition above_bottom (op : canvas_op) : Prop :=
  match op with
  | DrawString _ y _ => (margin + 12 <= y)%Q
  | _ => True
  end.

(** Every glyph 600 thousandths wide, as in Courier. *)
Definition monospace : font_metrics := fun _ _ => 600%N.

Definition no_images (url : string) : image_file := NotDownloaded.

(** The calls that draw [lines] from the cursor [y] on: each line at the
    cursor or, after a page break, at the top margin; the cursor moves
    down by [advance] after each line and ends at the last index. *)
Inductive lines_drawn (top x advance : Q) :
    Q -> list string -> list canvas_op -> Q -> Prop :=
| drawn_none y : lines_drawn top x advance y [] [] y
| drawn_here y line rest ops y' :
    lines_drawn top x advance (y - advance)%Q rest ops y' ->
    lines_drawn top x advance y (line :: rest)
      (DrawString x y line :: ops) y'
| drawn_on_new_page y line rest ops y' :
    lines_drawn top x advance (top - advance)%Q rest ops y' ->
    lines_drawn top x advance y (line :: rest)
      (ShowPage :: DrawString x top line :: ops) y'.

(** A title too long for one line of an A4 page at 18 points. *)
Definition headline : string :=
  "A very long headline that certainly needs a second line because it does not fit the width of the page".

Definition headline_article : article :=
  {| title := headline; author := ""; date := ""; tags := "";
     lead_image := ""; nodes := [] |}.

(** The font size a heading is set in. *)
Definition heading_size (level : string) : Q :=
  if String.eqb level "h1" then 14 else 12.

(** An image of 1000 by 500 pixels behind every URL. *)
Definition wide_image (url : string) : image_file := Decoded 1000 500 true.

Section Scaling.

Variable image_at : string -> image_file.
Variable pagesize : Q * Q.

(** What C7 asks of a [drawImage] call: it draws an image node of the
    stream, decoded with pixel size [(iw, ih)], at width
    [min(usable_w, iw)], which is at most [iw], and at a height that
    keeps the ratio [ih / iw]. *)
Definition to_scale (nodes : list content_node) (op : canvas_op) : Prop :=
  match op with
  | DrawImage _ _ w h =>
      exists img_url caption iw ih,
        In (Image img_url caption) nodes
        /\ image_at img_url = Decoded iw ih true
        /\ iw <> 0%N
        /\ w = py_min (usable_w pagesize) (inject_Z (Z.of_N iw))
        /\ (w <= inject_Z (Z.of_N iw))%Q
        /\ (h * inject_Z (Z.of_N iw) == inject_Z (Z.of_N ih) * w)%Q
        /\ (~ (w == 0)%Q ->
            (h / w == inject_Z (Z.of_N ih) / inject_Z (Z.of_N iw))%Q)
  | _ => True
  end.

Definition text_op (op : canvas_op) : Prop :=
  match op with
  | DrawImage _ _ _ _ => False
  | _ => True
  end.

(** The size at which an image of [iw] by [ih] pixels is drawn. *)
Definition display_w (iw : N) : Q :=
  py_min (usable_w pagesize) (inject_Z (Z.of_N iw)).

Definition display_h (iw ih : N) : Q :=
  (display_w iw * (inject_Z (Z.of_N ih) / inject_Z (Z.of_N iw)))%Q.

End Scaling.

(** ** Further vocabulary: lines, subtrees, requests, traces, words *)

Definition line_width (metrics : font_metrics) (fontname : string) (fontsize : Q)
    (ln : string) : Q :=
  stringWidth metrics ln fontname fontsize.

(** Consecutive lines are full: the first word of a line did not fit at
    the end of the line before it. *)
Fixpoint greedy (metrics : font_metrics) (fontname : string)
    (fontsize max_width : Q) (lines : list string) : Prop :=
  match lines with
  | l1 :: ((l2 :: _) as rest) =>
      (exists w, hd_error (Py.split l2) = Some w
         /\ (max_width < line_width metrics fontname fontsize ((l1 ++ " ") ++ w))%Q)
      /\ greedy metrics fontname fontsize max_width rest
  | _ => True
  end.


Definition text_len (el : dom) : nat := Py.len (get_text " " el).

(** A page with a [main] element and a longer [div]. *)
Definition main_and_div_page : dom :=
  document
    [Tag "html" []
       [Tag "body" []
          [Tag "main" [] [Text "main text"];
           Tag "div" [] [Text "a much longer text in a div"]]]].

(** The content of the page's [og:image] meta tag, when it has one. *)
Definition og_image_content (soup : dom) : option string :=
  match or_else (find_meta "property" "og:image" soup)
                (find_meta "name" "og:image" soup) with
  | Some tag => nonempty_attr (get tag "content")
  | None => None
  end.

(** A page of 31 images of which only the last has a source. *)
Definition late_image_page : dom :=
  document
    [Tag "body" []
       (repeat (Tag "img" [("alt", "decoration")] []) 30
        ++ [Tag "img" [("src", "/photo.jpg")] []])].

Section FetchVocabulary.

Variable http_get : string -> Z -> result (string * string).
Variable playwright_render : string -> Z -> result (string * string).

(** The text that the request fetched, [None] when it failed. *)
Definition fetched_text (url : string) (timeout : Z) : option string :=
  match http_get url timeout with
  | Returns (resp_text, _) => Some resp_text
  | Raises => None
  end.

(** What [fetch_html] returns when it does not use a rendering:
    [(text or "", final_url or url)]. *)
Definition static_result (url : string) (timeout : Z) : string * string :=
  match http_get url timeout with
  | Returns (resp_text, resp_url) =>
      (resp_text, if Py.truthy resp_url then resp_url else url)
  | Raises => ("", url)
  end.

(** The rendering that the headless browser delivers, when it is longer
    than 200 characters after trimming. *)
Definition usable_rendering (url : string) (timeout : Z) : option (string * string) :=
  match playwright_render url timeout with
  | Returns (rendered, final) =>
      if Nat.ltb 200 (Py.len (Py.strip rendered)) then Some (rendered, final)
      else None
  | Raises => None
  end.

End FetchVocabulary.

Section TraceVocabulary.

Variable metrics : font_metrics.
Variable dejavu_registered : bool.
Variable image_at : string -> image_file.
Variable pagesize : Q * Q.

(** The lines of a text set at [size]. *)
Definition wrapped (text : string) (size : Q) : list string :=
  split_text_to_lines metrics text (register_dejavu dejavu_registered) size
    (usable_w pagesize).

(** The calls of a text block from the cursor [y]: the font, then the
    lines; [y'] is the cursor after the last line. *)
Definition text_block_ops (size x advance : Q) (text : string)
    (y : Q) (ops : list canvas_op) (y' : Q) : Prop :=
  exists line_ops,
    ops = SetFont (register_dejavu dejavu_registered) size :: line_ops
    /\ lines_drawn (page_top pagesize) x advance y (wrapped text size) line_ops y'.

Definition title_ops (meta : article) (y : Q) (ops : list canvas_op) (y1 : Q) : Prop :=
  if Py.truthy (title meta) then
    exists y', text_block_ops 18 margin 22 (title meta) y ops y'
               /\ y1 = (y' - 6)%Q
  else ops = [] /\ y1 = y.

Definition info_ops (meta : article) (y : Q) (ops : list canvas_op) (y1 : Q) : Prop :=
  match info meta with
  | [] => ops = [] /\ y1 = y
  | _ :: _ =>
      exists line_ops y',
        ops = SetFont (register_dejavu dejavu_registered) 9 :: line_ops
        /\ lines_drawn (page_top pagesize) margin 16 y
             [Py.join "  |  " (info meta)] line_ops y'
        /\ y1 = (y' - 6)%Q
  end.

Definition caption_ops (caption : string) (y : Q) (ops : list canvas_op) (y1 : Q) : Prop :=
  if Py.truthy caption then
    exists y', text_block_ops 9 (margin + 4)%Q 11 caption y ops y'
               /\ y1 = (y' - 6)%Q
  else ops = [] /\ y1 = y.

(** The calls of one node from the cursor [y]. *)
Definition node_ops (node : content_node) (y : Q) (ops : list canvas_op) (y1 : Q) : Prop :=
  match node with
  | Heading txt level =>
      exists y', text_block_ops (heading_size level) margin
                   (heading_size level + 2)%Q txt y ops y'
                 /\ y1 = (y' - 6)%Q
  | Paragraph txt =>
      exists y', text_block_ops 11 margin (11 + 2)%Q txt y ops y'
                 /\ y1 = (y' - 8)%Q
  | Image img_url caption =>
      match image_at img_url with
      | NotDownloaded | NotDecoded => ops = [] /\ y1 = y
      | Decoded iw ih drawable =>
          if N.eqb iw 0 then ops = [] /\ y1 = y
          else
            let dw := display_w pagesize iw in
            let dh := display_h pagesize iw ih in
            exists break y0,
              ((break = [] /\ y0 = y /\ (margin <= y - dh)%Q)
               \/ (break = [ShowPage] /\ y0 = page_top pagesize
                   /\ (y - dh < margin)%Q))
              /\ if drawable then
                   exists caption_calls,
                     ops = break ++ DrawImage margin (y0 - dh)%Q dw dh :: caption_calls
                     /\ caption_ops caption (y0 - (dh + 6))%Q caption_calls y1
                 else ops = break /\ y1 = y0
      end
  end.

(** The calls of a node stream: the calls of each node, in stream
    order. *)
Inductive nodes_ops : Q -> list content_node -> list canvas_op -> Q -> Prop :=
| nodes_ops_nil y : nodes_ops y [] [] y
| nodes_ops_cons y node ops y1 rest ops' y2 :
    node_ops node y ops y1 -> nodes_ops y1 rest ops' y2 ->
    nodes_ops y (node :: rest) (ops ++ ops') y2.


(** The words that a node puts on the page: those of its text, and for
    an image those of its caption when the image is drawn. *)
Definition node_words (node : content_node) : list string :=
  match node with
  | Heading txt _ => Py.split txt
  | Paragraph txt => Py.split txt
  | Image img_url caption =>
      match image_at img_url with
      | Decoded iw _ true => if N.eqb iw 0 then [] else Py.split caption
      | _ => []
      end
  end.

(** A call that belongs on a page: the registered font at one of the
    five sizes, text at the left margin or 4 points inside it, an image
    at the left margin; [save] is not one of them. *)
Definition page_op (op : canvas_op) : Prop :=
  match op with
  | SetFont fontname size =>
      fontname = register_dejavu dejavu_registered
      /\ In size [18; 9; 14; 12; 11]%Q
  | ShowPage => True
  | DrawString x _ _ => x = margin \/ x = (margin + 4)%Q
  | DrawImage x _ _ _ => x = margin
  | Save => False
  end.

(** An image is drawn with its lower edge at or above the bottom margin,
    unless it is taller than the space between the margins: then it
    hangs from the top margin of a new page. *)
Definition image_placed (op : canvas_op) : Prop :=
  match op with
  | DrawImage _ y _ h =>
      (margin <= y)%Q
      \/ (y = (page_top pagesize - h)%Q /\ (page_top pagesize - margin < h)%Q)
  | _ => True
  end.

End TraceVocabulary.

(** The strings that the calls draw, in order. *)
Definition drawn_text (ops : list canvas_op) : list string :=
  flat_map (fun op => match op with
                      | DrawString _ _ s => [s]
                      | _ => []
                      end) ops.

(** The calls of a line loop: page breaks and strings at [x]. *)
Definition line_call (x : Q) (op : canvas_op) : Prop :=
  match op with
  | ShowPage => True
  | DrawString x' _ _ => x' = x
  | _ => False
  end.

(** The parts of the composed text, node by node. *)
Definition composed_words (meta : article) : list string :=
  Py.split (title meta)
  ++ flat_map Py.split (meta_lines meta)
  ++ flat_map (fun node => flat_map Py.split (node_lines node)) (nodes meta).

Fixpoint all_digits (s : string) : bool :=
  match s with
  | EmptyString => true
  | String c r =>
      ((48 <=? N_of_ascii c) && (N_of_ascii c <=? 57))%N && all_digits r
  end.

(** * Properties *)

(** *** Facts about the string primitives *)

Lemma append_nil_r (s : string) : (s ++ "")%string = s.
Proof. induction s as [|c s IH]; simpl; [reflexivity | now rewrite IH]. Qed.

Lemma append_assoc (a b c : string) :
  ((a ++ b) ++ c)%string = (a ++ (b ++ c))%string.
Proof. induction a as [|x a IH]; simpl; [reflexivity | now rewrite IH]. Qed.

Lemma append_snoc_cons (a : string) (c : ascii) (b : string) :
  ((a ++ String c "") ++ b)%string = (a ++ String c b)%string.
Proof. now rewrite append_assoc. Qed.

Lemma append_is_empty (a b : string) :
  Py.is_empty (a ++ b) = Py.is_empty a && Py.is_empty b.
Proof. destruct a; reflexivity. Qed.

Lemma is_empty_true (s : string) : Py.is_empty s = true <-> s = "".
Proof. destruct s; simpl; split; congruence. Qed.

Lemma is_empty_false (s : string) : Py.is_empty s = false <-> s <> "".
Proof. destruct s; simpl; split; intros H; congruence || now elim H. Qed.

Lemma flush_nonempty (s : string) : s <> "" -> Py.flush s = [s].
Proof. destruct s; intros H; [now elim H | reflexivity]. Qed.

(** Splitting at a whitespace character splits the word lists. *)
Lemma split_from_space cur a c b :
  Py.is_space c = true ->
  Py.split_from cur (a ++ String c b) =
  Py.split_from cur a ++ Py.split_from "" b.
Proof.
  intros Hc. revert cur.
  induction a as [|x a IH]; intros cur; simpl.
  - now rewrite Hc.
  - destruct (Py.is_space x).
    + now rewrite IH, app_assoc.
    + apply IH.
Qed.

Lemma split_from_word cur w :
  Py.no_space w = true -> (cur ++ w)%string <> "" ->
  Py.split_from cur w = [(cur ++ w)%string].
Proof.
  revert cur. induction w as [|x w IH]; intros cur Hw Hne; simpl in *.
  - rewrite append_nil_r in *. now apply flush_nonempty.
  - apply andb_prop in Hw as [Hx Hw].
    apply negb_true_iff in Hx. rewrite Hx.
    rewrite IH; rewrite ?append_snoc_cons; auto.
Qed.

Lemma split_word w : Py.word w -> Py.split w = [w].
Proof. intros [Hne Hw]. unfold Py.split. now rewrite split_from_word. Qed.

Lemma split_app_space a c b :
  Py.is_space c = true ->
  Py.split (a ++ String c b) = Py.split a ++ Py.split b.
Proof. intros. unfold Py.split. now apply split_from_space. Qed.

Lemma no_space_app a b :
  Py.no_space (a ++ b) = Py.no_space a && Py.no_space b.
Proof.
  induction a as [|x a IH]; simpl; [reflexivity|].
  now rewrite IH, andb_assoc.
Qed.

(** Everything [split] returns is a word. *)
Lemma split_from_words cur s :
  Py.no_space cur = true -> Forall Py.word (Py.split_from cur s).
Proof.
  revert cur. induction s as [|x s IH]; intros cur Hcur; simpl.
  - unfold Py.flush. destruct (Py.is_empty cur) eqn:E; constructor; auto.
    split; [now apply is_empty_false | assumption].
  - destruct (Py.is_space x) eqn:Hx.
    + apply Forall_app. split; [|now apply IH].
      unfold Py.flush. destruct (Py.is_empty cur) eqn:E; constructor; auto.
      split; [now apply is_empty_false | assumption].
    + apply IH. rewrite no_space_app. simpl. now rewrite Hcur, Hx.
Qed.

Lemma split_words s : Forall Py.word (Py.split s).
Proof. now apply split_from_words. Qed.

Lemma split_from_lstrip s : Py.split (Py.lstrip s) = Py.split s.
Proof.
  unfold Py.split. induction s as [|x s IH]; simpl; [reflexivity|].
  destruct (Py.is_space x) eqn:Hx; simpl; [assumption | now rewrite Hx].
Qed.

Lemma split_from_rstrip cur s :
  Py.split_from cur (Py.rstrip s) = Py.split_from cur s.
Proof.
  revert cur. induction s as [|x s IH]; intros cur; simpl; [reflexivity|].
  case_eq (Py.rstrip s).
  - intros E. rewrite E in IH. simpl in IH.
    destruct (Py.is_space x) eqn:Hx; simpl.
    + rewrite <- IH. simpl. now rewrite app_nil_r.
    + rewrite Hx. now rewrite <- IH.
  - intros a s0 E. rewrite <- E. simpl.
    destruct (Py.is_space x); now rewrite IH.
Qed.

(** [split] does not see the whitespace that [strip] removes. *)
Lemma split_strip s : Py.split (Py.strip s) = Py.split s.
Proof.
  unfold Py.strip, Py.split. rewrite split_from_rstrip.
  apply split_from_lstrip.
Qed.

Lemma lstrip_nonspace c r :
  Py.is_space c = false -> Py.lstrip (String c r) = String c r.
Proof. intros H. simpl. now rewrite H. Qed.

(** [lstrip] stops at the first character of a word. *)
Lemma lstrip_app_word x w :
  Py.word w -> Py.lstrip (x ++ w) = (Py.lstrip x ++ w)%string.
Proof.
  intros [Hne Hw]. induction x as [|c x IH]; simpl.
  - destruct w as [|d w]; [now elim Hne|].
    simpl in Hw. apply andb_prop in Hw as [Hd _].
    apply negb_true_iff in Hd. now rewrite lstrip_nonspace.
  - destruct (Py.is_space c); [assumption | reflexivity].
Qed.

Lemma rstrip_no_space w : Py.no_space w = true -> Py.rstrip w = w.
Proof.
  induction w as [|c w IH]; simpl; [reflexivity|].
  intros H. apply andb_prop in H as [Hc Hw].
  apply negb_true_iff in Hc. rewrite (IH Hw), Hc. now destruct w.
Qed.

(** [rstrip] removes nothing in front of a word. *)
Lemma rstrip_app_word y w :
  Py.word w -> Py.rstrip (y ++ w) = (y ++ w)%string.
Proof.
  intros [Hne Hw]. induction y as [|c y IH]; simpl.
  - now apply rstrip_no_space.
  - rewrite IH. destruct (y ++ w)%string eqn:E; [|reflexivity].
    destruct y; simpl in E; [now elim Hne | discriminate].
Qed.

Lemma strip_app_word x w :
  Py.word w -> Py.strip (x ++ w) = (Py.lstrip x ++ w)%string.
Proof.
  intros Hw. unfold Py.strip.
  now rewrite lstrip_app_word, rstrip_app_word.
Qed.

(** The candidate line of [split_text_to_lines] always ends with the new
    word, and starts with the current line when that begins a word. *)
Lemma candidate_suffix cur w :
  Py.word w ->
  Py.strip ((cur ++ " ") ++ w) = (Py.lstrip (cur ++ " ") ++ w)%string.
Proof. apply strip_app_word. Qed.

Lemma candidate_after_word cur w :
  Py.word cur -> Py.word w ->
  Py.strip ((cur ++ " ") ++ w) = ((cur ++ " ") ++ w)%string.
Proof.
  intros [Hne Hc] Hw. rewrite candidate_suffix by assumption.
  destruct cur as [|c cur]; [now elim Hne|].
  simpl in Hc. apply andb_prop in Hc as [Hc _].
  apply negb_true_iff in Hc.
  change (String c cur ++ " ")%string with (String c (cur ++ " ")).
  now rewrite lstrip_nonspace by assumption.
Qed.

Lemma split_candidate cur w :
  Py.word w ->
  Py.split (Py.strip ((cur ++ " ") ++ w)) = Py.split cur ++ [w].
Proof.
  intros Hw. rewrite split_strip, append_assoc.
  change (" " ++ w)%string with (String " " w).
  rewrite split_app_space by reflexivity.
  rewrite (split_word w) by assumption. reflexivity.
Qed.

Lemma inject_N_nonneg (n : N) : (0 <= inject_Z (Z.of_N n))%Q.
Proof. change 0%Q with (inject_Z 0). rewrite <- Zle_Qle. lia. Qed.

Lemma scaled_mono (A B fs m : Q) :
  (0 <= A)%Q -> (0 <= B)%Q -> (0 < m)%Q -> (m < B * (1 # 1000) * fs)%Q ->
  (B * (1 # 1000) * fs <= (A + B) * (1 # 1000) * fs)%Q.
Proof.
  intros HA HB Hm Hwide.
  assert (Hs : (0 < fs)%Q).
  { destruct (Qlt_le_dec 0 fs) as [|Hle]; auto. exfalso.
    assert (B * fs <= 0)%Q by nra. lra. }
  assert (0 <= A * fs)%Q by nra. lra.
Qed.

Section WrappingFacts.

Variable metrics : font_metrics.
Variables (fontname : string) (fontsize max_width : Q).

Let width (s : string) : Q := stringWidth metrics s fontname fontsize.
Let loop := wrap_loop metrics fontname fontsize max_width.

Lemma glyph_sum_app a b :
  glyph_sum metrics fontname (a ++ b) =
  (glyph_sum metrics fontname a + glyph_sum metrics fontname b)%N.
Proof.
  induction a as [|c a IH]; simpl; [reflexivity|].
  rewrite IH. lia.
Qed.

(** A string that measures more than a positive width does so at a
    positive font size, and then every string that contains it measures
    at least as much. *)
Lemma width_app_l a b :
  (0 < max_width)%Q -> (max_width < width b)%Q ->
  (width b <= width (a ++ b))%Q.
Proof.
  unfold width, stringWidth. intros Hpos Hwide.
  rewrite glyph_sum_app, N2Z.inj_add, inject_Z_plus.
  apply (scaled_mono _ _ _ max_width); auto using inject_N_nonneg.
Qed.

Lemma width_app_r a b :
  (0 < max_width)%Q -> (max_width < width a)%Q ->
  (width a <= width (a ++ b))%Q.
Proof.
  unfold width, stringWidth. intros Hpos Hwide.
  rewrite glyph_sum_app, N2Z.inj_add, inject_Z_plus.
  rewrite (Qplus_comm (inject_Z _)).
  apply (scaled_mono _ _ _ max_width); auto using inject_N_nonneg.
Qed.

Lemma concat_split_snoc lines cur :
  List.concat (map Py.split (if Py.truthy cur then lines ++ [cur] else lines)) =
  List.concat (map Py.split lines) ++ Py.split cur.
Proof.
  destruct cur as [|c cur]; simpl.
  - now rewrite app_nil_r.
  - rewrite map_app, concat_app. simpl. now rewrite app_nil_r.
Qed.

(** Loop invariant: the words of the committed lines, then those of the
    current line, then the words still to be read, are the input words. *)
Lemma wrap_loop_words ws : forall lines cur,
  Forall Py.word ws ->
  List.concat (map Py.split (loop ws lines cur)) =
  List.concat (map Py.split lines) ++ Py.split cur ++ ws.
Proof.
  unfold loop.
  induction ws as [|w ws IH]; intros lines cur Hws; simpl.
  - rewrite concat_split_snoc. now rewrite app_nil_r.
  - inversion Hws as [|? ? Hw Hrest]; subst.
    destruct (Qle_bool _ max_width).
    + rewrite IH by assumption. rewrite split_candidate by assumption.
      now rewrite <- app_assoc.
    + rewrite IH by assumption. rewrite concat_split_snoc.
      rewrite (split_word w) by assumption.
      now rewrite <- app_assoc.
Qed.

Lemma wrap_loop_nonempty ws : forall lines cur,
  Forall (fun ln => ln <> "") lines ->
  Forall (fun ln => ln <> "") (loop ws lines cur).
Proof.
  unfold loop.
  assert (Hsnoc : forall lines cur, Forall (fun ln => ln <> "") lines ->
            Forall (fun ln => ln <> "")
              (if Py.truthy cur then lines ++ [cur] else lines)).
  { intros lines [|c cur] H; simpl; [assumption|].
    apply Forall_app. split; [assumption|]. now constructor. }
  induction ws as [|w ws IH]; intros lines cur H; simpl.
  - now apply Hsnoc.
  - destruct (Qle_bool _ max_width); apply IH; auto.
Qed.

(** Committed lines stay in the result. *)
Lemma wrap_loop_keeps ws : forall lines cur ln,
  In ln lines -> In ln (loop ws lines cur).
Proof.
  unfold loop.
  assert (Hsnoc : forall lines cur ln, In ln lines ->
            In ln (if Py.truthy cur then lines ++ [cur] else lines)).
  { intros lines cur ln H. destruct (Py.truthy cur); [|assumption].
    apply in_or_app. now left. }
  induction ws as [|w ws IH]; intros lines cur ln H; simpl.
  - now apply Hsnoc.
  - destruct (Qle_bool _ max_width); apply IH; auto.
Qed.

Lemma too_wide (s : string) :
  (max_width < width s)%Q -> Qle_bool (width s) max_width = false.
Proof.
  intros H. destruct (Qle_bool (width s) max_width) eqn:E; [|reflexivity].
  apply Qle_bool_iff in E. lra.
Qed.

(** Once the current line is a word wider than the page, nothing is added
    to it: it is committed as it is. *)
Lemma wrap_loop_wide_cur ws : forall lines w,
  (0 < max_width)%Q -> Py.word w -> (max_width < width w)%Q ->
  Forall Py.word ws -> In w (loop ws lines w).
Proof.
  unfold loop. intros lines w Hpos Hw Hwide Hws.
  assert (Ht : Py.truthy w = true).
  { destruct Hw as [Hne _]. destruct w; [now elim Hne | reflexivity]. }
  destruct ws as [|w2 ws]; simpl.
  - rewrite Ht. apply in_or_app. right. now left.
  - inversion Hws as [|? ? Hw2 Hrest]; subst.
    rewrite candidate_after_word by assumption.
    fold (width ((w ++ " ") ++ w2)).
    rewrite too_wide.
    + rewrite Ht. apply wrap_loop_keeps. apply in_or_app. right. now left.
    + eapply Qlt_le_trans; [exact Hwide|]. rewrite append_assoc.
      now apply width_app_r.
Qed.

Lemma wrap_loop_wide ws : forall lines cur w,
  (0 < max_width)%Q -> Forall Py.word ws -> In w ws ->
  (max_width < width w)%Q -> In w (loop ws lines cur).
Proof.
  unfold loop.
  induction ws as [|x ws IH]; intros lines cur w Hpos Hws Hin Hwide.
  - contradiction.
  - inversion Hws as [|? ? Hx Hrest]; subst. simpl.
    destruct Hin as [->|Hin].
    + rewrite candidate_suffix by assumption.
      fold (width (Py.lstrip (cur ++ " ") ++ w)).
      rewrite too_wide.
      * now apply wrap_loop_wide_cur.
      * eapply Qlt_le_trans; [exact Hwide|]. now apply width_app_l.
    + destruct (Qle_bool _ max_width); now apply IH.
Qed.

End WrappingFacts.

(** C10. For every text, font, font size and maximum width, the lines that
    [split_text_to_lines] returns, split on whitespace and concatenated,
    are the whitespace-split words of the text, in order and without loss
    or repetition; no line is empty; and, the maximum width being
    positive, a word wider than it is one of the lines. *)
Theorem split_text_to_lines_keeps_words
    (metrics : font_metrics) (text fontname : string)
    (fontsize max_width : Q) :
  let lines := split_text_to_lines metrics text fontname fontsize max_width in
  List.concat (map Py.split lines) = Py.split text
  /\ Forall (fun ln => ln <> "") lines
  /\ ((0 < max_width)%Q ->
      forall w, In w (Py.split text) ->
        (max_width < stringWidth metrics w fontname fontsize)%Q ->
        In w lines).
Proof.
  unfold split_text_to_lines. repeat split.
  - rewrite wrap_loop_words by apply split_words. reflexivity.
  - apply wrap_loop_nonempty. constructor.
  - intros Hpos w Hin Hwide.
    apply wrap_loop_wide; auto using split_words.
Qed.

(** *** Stripped strings *)

Lemma lstrip_solid s : starts_solid s = true -> Py.lstrip s = s.
Proof.
  destruct s as [|c s]; simpl; [discriminate|].
  intros H. apply negb_true_iff in H. now rewrite H.
Qed.

Lemma rstrip_solid s : ends_solid s = true -> Py.rstrip s = s.
Proof.
  induction s as [|c s IH]; [discriminate|].
  destruct s as [|d s].
  - simpl. intros H. apply negb_true_iff in H. now rewrite H.
  - intros H. change (ends_solid (String d s) = true) in H.
    change (Py.rstrip (String c (String d s)))
      with (match Py.rstrip (String d s) with
            | EmptyString =>
                if Py.is_space c then EmptyString else String c EmptyString
            | r' => String c r'
            end).
    now rewrite (IH H).
Qed.

Lemma strip_solid s : solid s -> Py.strip s = s.
Proof.
  intros [Hs He]. unfold Py.strip.
  rewrite lstrip_solid by assumption. now apply rstrip_solid.
Qed.

Lemma lstrip_starts s : Py.lstrip s = "" \/ starts_solid (Py.lstrip s) = true.
Proof.
  induction s as [|c s IH]; simpl; [now left|].
  destruct (Py.is_space c) eqn:Hc; [assumption|].
  right. simpl. now rewrite Hc.
Qed.

Lemma rstrip_ends s : Py.rstrip s = "" \/ ends_solid (Py.rstrip s) = true.
Proof.
  induction s as [|c s IH]; simpl; [now left|].
  destruct (Py.rstrip s) as [|d r] eqn:E.
  - destruct (Py.is_space c) eqn:Hc; [now left|].
    right. simpl. now rewrite Hc.
  - right. destruct IH as [IH|IH]; [discriminate|]. exact IH.
Qed.

Lemma rstrip_starts s :
  starts_solid s = true -> starts_solid (Py.rstrip s) = true.
Proof.
  destruct s as [|c s]; simpl; [discriminate|].
  intros H. destruct (Py.rstrip s).
  - destruct (Py.is_space c) eqn:Hc; simpl; [discriminate | now rewrite Hc].
  - exact H.
Qed.

(** What [strip] returns is empty or begins and ends with a character
    that is not whitespace. *)
Lemma strip_empty_or_solid s : Py.strip s = "" \/ solid (Py.strip s).
Proof.
  unfold Py.strip.
  destruct (lstrip_starts s) as [E|Hs].
  - rewrite E. now left.
  - destruct (rstrip_ends (Py.lstrip s)) as [E|He]; [now left|].
    right. split; [now apply rstrip_starts | assumption].
Qed.

Lemma starts_solid_app a b :
  starts_solid a = true -> starts_solid (a ++ b) = true.
Proof. destruct a; simpl; [discriminate | trivial]. Qed.

Lemma ends_solid_app a b :
  ends_solid b = true -> ends_solid (a ++ b) = true.
Proof.
  intros H. induction a as [|c a IH]; simpl; [assumption|].
  destruct (a ++ b)%string eqn:E; [|assumption].
  destruct a; simpl in E; [subst b|]; discriminate.
Qed.

Lemma solid_join (parts : list string) :
  Forall solid parts -> parts <> [] -> solid (Py.join "" parts).
Proof.
  unfold Py.join.
  induction parts as [|x rest IH]; intros Hall Hne; [now elim Hne|].
  inversion Hall as [|? ? Hx Hrest]; subst.
  destruct rest as [|y rest']; [exact Hx|].
  change (String.concat "" (x :: y :: rest'))
    with (x ++ String.concat "" (y :: rest'))%string.
  destruct Hx as [Hxs _]. destruct (IH Hrest) as [_ He]; [discriminate|].
  split; [now apply starts_solid_app | now apply ends_solid_app].
Qed.

Lemma flush_strip_solid s : Forall solid (Py.flush (Py.strip s)).
Proof.
  unfold Py.flush.
  destruct (strip_empty_or_solid s) as [E|H].
  - rewrite E. constructor.
  - destruct (Py.is_empty (Py.strip s));
      [apply Forall_nil | apply Forall_cons; [assumption | apply Forall_nil]].
Qed.

Lemma stripped_strings_solid el : Forall solid (stripped_strings el).
Proof.
  unfold stripped_strings. apply Forall_flat_map, Forall_forall.
  intros d _. destruct d; try constructor. apply flush_strip_solid.
Qed.

(** [get_text(strip=True)] has no whitespace around it: stripping it
    again changes nothing. *)
Lemma get_text_stripped el : Py.strip (get_text "" el) = get_text "" el.
Proof.
  unfold get_text.
  destruct (stripped_strings el) as [|x rest] eqn:E; [reflexivity|].
  apply strip_solid, solid_join; [|discriminate].
  rewrite <- E. apply stripped_strings_solid.
Qed.

(** *** The node stream *)

Lemma node_of_passes urljoin base_url parent el :
  Forall passes_filter (node_of urljoin base_url parent el).
Proof.
  unfold node_of.
  destruct (named ["h1"; "h2"; "h3"; "h4"] el).
  - destruct (Py.truthy (get_text "" el)) eqn:Ht; constructor; [|constructor].
    simpl. rewrite get_text_stripped.
    unfold Py.truthy in Ht. apply negb_true_iff in Ht.
    now apply is_empty_false.
  - destruct (named ["p"; "blockquote"; "li"] el).
    + destruct (Py.truthy (get_text "" el) && Nat.ltb 10 (Py.len (get_text "" el)))
        eqn:Ht; constructor; [|constructor].
      apply andb_prop in Ht as [Ht Hlen].
      simpl. rewrite get_text_stripped. split.
      * now apply Nat.ltb_lt.
      * unfold Py.truthy in Ht. apply negb_true_iff in Ht.
        now apply is_empty_false.
    + destruct (named ["img"] el); [|constructor].
      destruct (image_source el); repeat constructor.
Qed.

(** C2. For every markup and base URL, whatever the parser and the
    readability step make of the markup, the node stream holds no
    paragraph whose trimmed text has 10 characters or fewer and no
    heading or paragraph whose trimmed text is empty. *)
Theorem node_stream_passes_filter
    (parse_html : string -> dom) (readability : string -> readability_outcome)
    (urljoin : string -> string -> string) (html base_url : string) :
  Forall passes_filter
    (nodes (extract_more_elements parse_html readability urljoin html base_url)).
Proof.
  unfold extract_more_elements.
  destruct (readability html); simpl;
    apply Forall_flat_map, Forall_forall; intros [parent el] _;
    apply node_of_passes.
Qed.

(** *** The composed text *)

Lemma join_cons sep x (parts : list string) :
  parts <> [] -> Py.join sep (x :: parts) = (x ++ sep ++ Py.join sep parts)%string.
Proof. destruct parts; [intros H; now elim H | reflexivity]. Qed.

Lemma join_app sep (l1 l2 : list string) :
  l1 <> [] -> l2 <> [] ->
  Py.join sep (l1 ++ l2) = (Py.join sep l1 ++ sep ++ Py.join sep l2)%string.
Proof.
  intros H1 H2. induction l1 as [|x l1 IH]; [now elim H1|].
  destruct l1 as [|y l1].
  - simpl. now apply join_cons.
  - change ((x :: y :: l1) ++ l2) with (x :: ((y :: l1) ++ l2)).
    rewrite join_cons by discriminate.
    rewrite IH by discriminate.
    rewrite (join_cons sep x (y :: l1)) by discriminate.
    now rewrite !append_assoc.
Qed.

Lemma fold_left_parts (ns : list content_node) : forall init,
  fold_left (fun parts node => (parts ++ node_lines node) ++ [""]) ns init =
  init ++ flat_map (fun n => node_lines n ++ [""]) ns.
Proof.
  induction ns as [|n ns IH]; intros init; simpl.
  - now rewrite app_nil_r.
  - rewrite IH. now rewrite <- !app_assoc.
Qed.

Lemma text_parts_split meta :
  text_parts meta =
  header_parts meta ++ flat_map (fun n => node_lines n ++ [""]) (nodes meta).
Proof.
  unfold text_parts, header_parts, meta_lines. rewrite fold_left_parts.
  f_equal.
  destruct (Py.truthy (title meta)), (Py.truthy (author meta)),
    (Py.truthy (date meta)), (Py.truthy (tags meta)); reflexivity.
Qed.

Lemma node_lines_nonempty n : node_lines n <> [].
Proof. destruct n; discriminate. Qed.

Lemma concat_empty_cons (x : string) (rest : list string) :
  String.concat "" (x :: rest) = (x ++ String.concat "" rest)%string.
Proof. destruct rest; simpl; [now rewrite append_nil_r | reflexivity]. Qed.

Lemma join_parts_nodes (ns : list content_node) : forall parts,
  parts <> [] ->
  Py.join newline (parts ++ flat_map (fun n => node_lines n ++ [""]) ns) =
  (Py.join newline parts ++ nodes_text ns)%string.
Proof.
  unfold nodes_text.
  induction ns as [|n ns IH]; intros parts Hne; simpl flat_map; simpl map.
  - rewrite app_nil_r. simpl. now rewrite append_nil_r.
  - rewrite app_assoc. rewrite IH.
    + rewrite concat_empty_cons, <- append_assoc. f_equal.
      rewrite join_app; [|assumption|].
      * rewrite join_app; [|apply node_lines_nonempty|discriminate].
        unfold node_text. reflexivity.
      * intros E. apply app_eq_nil in E as [_ E]. discriminate.
    + intros E. apply app_eq_nil in E as [E _]. contradiction.
Qed.

Lemma header_parts_nonempty meta : header_parts meta <> [].
Proof.
  unfold header_parts. intros E.
  apply app_eq_nil in E as [_ E]. apply app_eq_nil in E as [_ E].
  discriminate.
Qed.

(** Before the final [strip], the text is the metadata lines followed by
    the nodes, each between two line ends: two consecutive nodes are
    one blank line apart. *)
Lemma joined_text meta :
  Py.join newline (text_parts meta) =
  (Py.join newline (header_parts meta) ++ nodes_text (nodes meta))%string.
Proof.
  rewrite text_parts_split.
  apply join_parts_nodes, header_parts_nonempty.
Qed.

Lemma rstrip_trailing_space s c :
  ends_solid s = true -> Py.is_space c = true ->
  Py.rstrip (s ++ String c "") = s.
Proof.
  intros Hs Hc. induction s as [|x s IH]; [discriminate|].
  destruct s as [|y s].
  - simpl in *. rewrite Hc. apply negb_true_iff in Hs. now rewrite Hs.
  - change (ends_solid (String y s) = true) in Hs.
    change (Py.rstrip ((String x (String y s)) ++ String c ""))
      with (match Py.rstrip (String y s ++ String c "") with
            | EmptyString =>
                if Py.is_space x then EmptyString else String x EmptyString
            | r' => String x r'
            end).
    now rewrite (IH Hs).
Qed.

(** C1, as stated, fails: for the scenario's node stream under the title
    "My Article" and no other metadata, the composed text has two blank
    lines after the title and no blank line at its end, so it is not
    title, blank, heading, blank, paragraph, blank. *)
Lemma composed_text_not_as_claimed :
  full_text (scenario_article "My Article" "" "" "") =
    Py.join newline ["My Article"; ""; ""; "TITLE"; ""; scenario_paragraph]
  /\ full_text (scenario_article "My Article" "" "" "") <>
    Py.join newline ["My Article"; ""; "TITLE"; ""; scenario_paragraph; ""].
Proof. split; [reflexivity | vm_compute; discriminate]. Qed.

(** C1, amended. For the scenario's node stream under a title that does
    not begin with whitespace, the composed text is exactly: the title
    line, a blank line, the metadata lines that are present, a blank
    line, the upper-cased heading, a blank line, the paragraph, and no
    blank line after it.  In general the composed text is the trimmed
    concatenation of the metadata lines and of the nodes, each node
    between two line ends: one blank line separates two nodes. *)
Theorem composed_text (meta : article) :
  (nodes meta = scenario_nodes -> starts_solid (title meta) = true ->
   full_text meta =
   Py.join newline
     ([title meta; ""] ++ meta_lines meta
      ++ [""; "TITLE"; ""; scenario_paragraph]))
  /\ full_text meta =
     Py.strip (Py.join newline (header_parts meta) ++ nodes_text (nodes meta)).
Proof.
  split; [|unfold full_text; now rewrite joined_text].
  intros Hnodes Htitle. unfold full_text.
  rewrite text_parts_split, Hnodes. unfold header_parts.
  assert (Ht : Py.truthy (title meta) = true)
    by (destruct (title meta); [discriminate | reflexivity]).
  rewrite Ht.
  set (L1 := [title meta; ""] ++ meta_lines meta ++ [""; "TITLE"; ""]).
  replace (([title meta; ""] ++ meta_lines meta ++ [""]) ++
           flat_map (fun n => node_lines n ++ [""]) scenario_nodes)
    with ((L1 ++ [scenario_paragraph]) ++ [""])
    by (unfold L1; simpl; now rewrite <- !app_assoc).
  replace ([title meta; ""] ++ meta_lines meta
           ++ [""; "TITLE"; ""; scenario_paragraph])
    with (L1 ++ [scenario_paragraph])
    by (unfold L1; simpl; now rewrite <- !app_assoc).
  assert (HL1 : L1 <> []) by (unfold L1; discriminate).
  assert (HL : L1 ++ [scenario_paragraph] <> []).
  { intros E. apply app_eq_nil in E as [_ E]. discriminate. }
  rewrite (join_app newline (L1 ++ [scenario_paragraph]) [""])
    by (assumption || discriminate).
  change (newline ++ Py.join newline [""])%string with newline.
  unfold Py.strip. rewrite lstrip_solid.
  - apply rstrip_trailing_space; [|reflexivity].
    rewrite join_app by (assumption || discriminate).
    now apply ends_solid_app.
  - apply starts_solid_app. unfold L1.
    change (([title meta; ""] ++ meta_lines meta ++ [""; "TITLE"; ""])
            ++ [scenario_paragraph])
      with (title meta :: ([""] ++ meta_lines meta ++ [""; "TITLE"; ""])
            ++ [scenario_paragraph]).
    rewrite join_cons by discriminate.
    now apply starts_solid_app.
Qed.

Lemma composed_text_witness :
  full_text (scenario_article "My Article" "A. Writer" "2024-05-01" "") =
  Py.join newline
    ["My Article"; ""; "By A. Writer"; "Published: 2024-05-01";
     ""; "TITLE"; ""; scenario_paragraph].
Proof.
  exact (proj1 (composed_text
                  (scenario_article "My Article" "A. Writer" "2024-05-01" ""))
               eq_refl eq_refl).
Defined.

(** *** The need-render decision *)

Lemma len_lstrip s : Py.len (Py.lstrip s) <= Py.len s.
Proof.
  unfold Py.len. induction s as [|c s IH]; simpl; [lia|].
  destruct (Py.is_space c); simpl; lia.
Qed.

Lemma len_rstrip s : Py.len (Py.rstrip s) <= Py.len s.
Proof.
  unfold Py.len. induction s as [|c s IH]; simpl; [lia|].
  destruct (Py.rstrip s); [destruct (Py.is_space c)|]; simpl in *; lia.
Qed.

Lemma len_strip s : Py.len (Py.strip s) <= Py.len s.
Proof.
  unfold Py.strip.
  pose proof (len_rstrip (Py.lstrip s)). pose proof (len_lstrip s). lia.
Qed.

Lemma host_match_iff urlparse_netloc url :
  host_match urlparse_netloc url = true <-> host_listed urlparse_netloc url.
Proof.
  unfold host_match, host_listed.
  destruct (urlparse_netloc url) as [netloc|].
  - rewrite existsb_exists. split.
    + intros [d [Hin Hd]]. now exists netloc, d.
    + intros [n' [d [Hn' [Hin Hd]]]]. injection Hn' as <-. now exists d.
  - split; [discriminate|]. intros [n [d [E _]]]. discriminate.
Qed.

Lemma too_thin_iff text :
  too_thin text = true <-> markup_empty text \/ markup_thin text.
Proof.
  unfold too_thin, markup_empty, markup_thin. destruct text as [t|].
  - rewrite Nat.ltb_lt. split.
    + intros H. right. now exists t.
    + intros [[H|H]|[t' [H Hlen]]]; try discriminate.
      * injection H as ->. vm_compute. lia.
      * now injection H as ->.
  - split; [now left; left | reflexivity].
Qed.

Lemma script_marker_iff text :
  script_marker text = true <-> markup_script_gated text.
Proof.
  unfold script_marker, markup_script_gated. rewrite orb_true_iff.
  destruct text as [t|].
  - split.
    + intros H. now exists t.
    + intros [t' [E H]]. now injection E as ->.
  - split.
    + vm_compute. intros [H|H]; discriminate.
    + intros [t' [E _]]. discriminate.
Qed.

(** The decision never raises, and it is the disjunction of the four
    reasons. *)
Lemma need_render_returns urlparse_netloc text url :
  exists b, need_render urlparse_netloc text url = Returns b.
Proof.
  unfold need_render. destruct (urlparse_netloc url); simpl; eauto.
Qed.

Lemma need_render_value urlparse_netloc text url :
  need_render urlparse_netloc text url =
  Returns (too_thin text || script_marker text || host_match urlparse_netloc url).
Proof.
  unfold need_render, host_match.
  destruct (urlparse_netloc url) as [netloc|]; unfold try_except, bind.
  - match goal with
    | |- context [existsb ?f ?l] => destruct (existsb f l)
    end; destruct (too_thin text), (script_marker text); reflexivity.
  - destruct (too_thin text), (script_marker text); reflexivity.
Qed.

Lemma need_render_true_iff urlparse_netloc text url :
  need_render urlparse_netloc text url = Returns true <->
  markup_empty text \/ markup_thin text \/ markup_script_gated text
  \/ host_listed urlparse_netloc url.
Proof.
  rewrite need_render_value.
  rewrite <- host_match_iff, <- script_marker_iff.
  pose proof (too_thin_iff text) as Hthin.
  split.
  - intros H. injection H as H.
    apply orb_true_iff in H as [H|H]; [|tauto].
    apply orb_true_iff in H as [H|H]; tauto.
  - intros H. f_equal. rewrite !orb_true_iff. tauto.
Qed.

(** C4, as stated, fails: a markup string of length 2000 without
    script-required markers, on a host that is not in the list, does
    trigger the fallback when fewer than 800 of its characters remain
    after trimming. *)
Lemma need_render_padded_markup :
  Py.len padded_markup = 2000
  /\ script_marker (Some padded_markup) = false
  /\ host_match example_netloc "https://example.com/post" = false
  /\ need_render example_netloc (Some padded_markup) "https://example.com/post"
     = Returns true.
Proof. vm_compute. repeat split. Qed.

(** C4, amended. For every fetched text ([None] when the request failed)
    and URL, the decision is true exactly when the markup is empty, or
    its trimmed length is below 800, or it contains [<noscript] or
    [javascript required] in any letter case, or the host contains a name
    of the list.  A markup string of length 50 always triggers the
    fallback; a markup string whose trimmed length is at least 800, with
    no marker and a host outside the list, never does. *)
Theorem need_render_policy (urlparse_netloc : string -> result string)
    (text : option string) (url : string) :
  (need_render urlparse_netloc text url = Returns true <->
   markup_empty text \/ markup_thin text \/ markup_script_gated text
   \/ host_listed urlparse_netloc url)
  /\ (forall t, text = Some t -> Py.len t = 50 ->
      need_render urlparse_netloc text url = Returns true)
  /\ (forall t, text = Some t -> 800 <= Py.len (Py.strip t) ->
      ~ markup_script_gated text -> ~ host_listed urlparse_netloc url ->
      need_render urlparse_netloc text url = Returns false).
Proof.
  split; [apply need_render_true_iff|]. split.
  - intros t -> Hlen. apply need_render_true_iff. right. left.
    exists t. split; [reflexivity|]. pose proof (len_strip t). lia.
  - intros t -> Hlen Hmark Hhost.
    destruct (need_render_returns urlparse_netloc (Some t) url) as [[|] E];
      [|exact E].
    apply need_render_true_iff in E.
    destruct E as [[E|E]|[[t' [E Hthin]]|[E|E]]];
      try discriminate; try contradiction.
    + injection E as ->. vm_compute in Hlen. lia.
    + injection E as <-. lia.
Qed.

Lemma need_render_policy_witness :
  need_render example_netloc (Some (replicate 50 "a")) "https://example.com/post"
  = Returns true.
Proof.
  exact (proj1 (proj2 (need_render_policy example_netloc
                         (Some (replicate 50 "a")) "https://example.com/post"))
               (replicate 50 "a") eq_refl eq_refl).
Defined.

(** *** Fetching never raises *)

(** C5, as stated, fails: when the request fails and the headless
    browser then delivers a page of more than 200 characters, [fetch_html]
    returns that page and its URL, not empty markup and the original
    URL. *)
Lemma fetch_html_failed_request_rendered :
  fetch_html (fun _ _ => Raises) example_netloc
    (fun _ _ => Returns (replicate 300 "a", "https://example.com/home"))
    "https://example.com/" 20 true
  = Returns (replicate 300 "a", "https://example.com/home")
  /\ replicate 300 "a" <> "".
Proof. split; [reflexivity | discriminate]. Qed.

(** C5, amended. For every URL and timeout, whatever the network, the
    URL parser and the headless browser do, [fetch_html] returns a pair
    and raises nothing; when the request fails and the rendering fallback
    contributes nothing, the pair is the empty markup and the original
    URL. *)
Theorem fetch_html_never_raises
    (http_get : string -> Z -> result (string * string))
    (urlparse_netloc : string -> result string)
    (playwright_render : string -> Z -> result (string * string))
    (url : string) (timeout : Z) (try_playwright_if_needed : bool) :
  (exists markup resolved,
     fetch_html http_get urlparse_netloc playwright_render url timeout
       try_playwright_if_needed = Returns (markup, resolved))
  /\ (http_get url timeout = Raises ->
      no_rendering playwright_render url timeout try_playwright_if_needed ->
      fetch_html http_get urlparse_netloc playwright_render url timeout
        try_playwright_if_needed = Returns ("", url)).
Proof.
  unfold fetch_html. split.
  - destruct (http_get url timeout) as [[resp_text resp_url]|]; simpl;
      rewrite need_render_value; simpl;
      match goal with
      | |- context [if ?b then try_except _ _ else _] => destruct b
      end; simpl; eauto;
      destruct (playwright_render url timeout) as [[rendered final]|]; simpl;
      eauto;
      match goal with
      | |- context [if ?b then Some _ else None] => destruct b
      end; simpl; eauto.
  - intros Hget Hno. rewrite Hget. simpl.
    rewrite need_render_value. simpl.
    assert (Hurl : (if Py.truthy url then url else url) = url)
      by now destruct (Py.truthy url).
    destruct Hno as [->|[Hpw|[rendered [final [Hpw Hlen]]]]]; simpl.
    + now rewrite Hurl.
    + destruct try_playwright_if_needed; simpl; [|now rewrite Hurl].
      rewrite Hpw. simpl. now rewrite Hurl.
    + destruct try_playwright_if_needed; simpl; [|now rewrite Hurl].
      rewrite Hpw. simpl.
      replace (Nat.ltb 200 (Py.len (Py.strip rendered))) with false
        by (symmetry; apply Nat.ltb_ge; exact Hlen).
      rewrite andb_false_r. simpl. now rewrite Hurl.
Qed.

Lemma fetch_html_never_raises_witness :
  fetch_html (fun _ _ => Raises) example_netloc (fun _ _ => Raises)
    "https://example.com/" 20 true
  = Returns ("", "https://example.com/").
Proof.
  exact (proj2 (fetch_html_never_raises (fun _ _ => Raises) example_netloc
                  (fun _ _ => Raises) "https://example.com/" 20%Z true)
               eq_refl (or_intror (or_introl eq_refl))).
Defined.

(** *** The author field *)

(** C8, as stated, fails.  With [article:author] content of three spaces
    (not empty) the byline wins; with an [author] meta tag in the same
    page, that tag wins; and content with spaces around it is not
    returned as it is. *)
Lemma author_not_always_article_author :
  extract_author
    (byline_page [("property", "article:author"); ("content", "   ")] [])
    = "Carol"
  /\ extract_author
       (byline_page [("property", "article:author"); ("content", "Bob")]
          [Tag "meta" [("name", "author"); ("content", "Alice")] []])
     = "Alice"
  /\ extract_author
       (byline_page [("property", "article:author"); ("content", " Bob ")] [])
     = "Bob".
Proof. repeat split. Qed.

Lemma first_meta_nonempty_wins soup a :
  first_meta soup ["author"; "article:author"; "og:article:author"; "byline"]
    = Some a ->
  a <> "" -> extract_author soup = a.
Proof.
  intros E Ha. unfold extract_author. rewrite E.
  destruct a; [now elim Ha | reflexivity].
Qed.

(** C8, amended. When the first [article:author] meta tag of the
    document has content that is not blank, and no [author] meta tag
    supplies content before it, the extracted author is that content
    with the surrounding whitespace removed, whatever a [.byline] element
    says.  In general the first metadata candidate with content, in the
    order [author], [article:author], [og:article:author], [byline], is
    the author as soon as it is not blank, and no selector is
    consulted. *)
Theorem author_from_article_author_meta
    (parse_html : string -> dom) (readability : string -> readability_outcome)
    (urljoin : string -> string -> string) (html base_url : string) :
  let soup := parse_html html in
  let out := extract_more_elements parse_html readability urljoin html base_url in
  (forall content,
     meta_content soup "author" = None ->
     meta_content soup "article:author" = Some content ->
     Py.strip content <> "" ->
     author out = Py.strip content)
  /\ (forall a,
        first_meta soup ["author"; "article:author"; "og:article:author"; "byline"]
          = Some a ->
        a <> "" -> author out = a).
Proof.
  intros soup out.
  assert (Hout : author out = extract_author soup).
  { unfold out, extract_more_elements. fold soup.
    destruct (readability html); reflexivity. }
  rewrite Hout. split.
  - intros content Hnone Hsome Hne.
    apply first_meta_nonempty_wins; [|assumption].
    simpl. now rewrite Hnone, Hsome.
  - intros a E Ha. now apply first_meta_nonempty_wins.
Qed.

Lemma author_from_article_author_meta_witness :
  author
    (extract_more_elements
       (fun _ => byline_page [("property", "article:author"); ("content", " Bob ")] [])
       (fun _ => ReadabilityMissing) (fun _ src => src) "<html>" "https://example.com/")
  = "Bob".
Proof.
  refine (proj1 (author_from_article_author_meta
                   (fun _ => byline_page
                               [("property", "article:author"); ("content", " Bob ")] [])
                   (fun _ => ReadabilityMissing) (fun _ src => src)
                   "<html>" "https://example.com/")
                " Bob " eq_refl eq_refl _).
  discriminate.
Defined.

(** *** Empty markup *)

(** C9. When the markup is empty, so that the parser builds the empty
    document and readability gives no summary, extraction returns empty
    metadata and an empty node stream; on that result the composed text
    is empty and [create_pdf] draws nothing before it saves the
    document. *)
Theorem empty_markup_degrades
    (parse_html : string -> dom) (readability : string -> readability_outcome)
    (urljoin : string -> string -> string) (base_url : string)
    (metrics : font_metrics) (dejavu_registered : bool)
    (image_at : string -> image_file) (pagesize : Q * Q) :
  parse_html "" = document [] ->
  readability_failed (readability "") ->
  let out := extract_more_elements parse_html readability urljoin "" base_url in
  out = empty_article
  /\ full_text out = ""
  /\ create_pdf metrics dejavu_registered image_at pagesize out (nodes out)
     = [Save].
Proof.
  intros Hparse Hread out.
  assert (Hout : out = empty_article).
  { unfold out, extract_more_elements. rewrite Hparse.
    destruct Hread as [-> | ->]; reflexivity. }
  rewrite Hout. repeat split.
Qed.

Lemma empty_markup_degrades_witness :
  extract_more_elements (fun _ => document []) (fun _ => ReadabilityRaised)
    (fun _ src => src) "" "https://example.com/" = empty_article.
Proof.
  exact (proj1 (empty_markup_degrades (fun _ => document [])
                  (fun _ => ReadabilityRaised) (fun _ src => src)
                  "https://example.com/" (fun _ _ => 600%N) false
                  (fun _ => NotDownloaded) A4
                  eq_refl (or_intror eq_refl))).
Defined.

(** *** Page breaks *)

Lemma Qltb_true (a b : Q) : Qltb a b = true -> (a < b)%Q.
Proof.
  unfold Qltb. intros H. apply negb_true_iff in H.
  apply Qnot_le_lt. intros Hle. apply Qle_bool_iff in Hle. congruence.
Qed.

Lemma Qltb_false (a b : Q) : Qltb a b = false -> (b <= a)%Q.
Proof.
  unfold Qltb. intros H. apply negb_false_iff in H.
  now apply Qle_bool_iff.
Qed.

Section RenderingFacts.

Variable metrics : font_metrics.
Variable dejavu_registered : bool.
Variable image_at : string -> image_file.
Variable pagesize : Q * Q.

Lemma draw_lines_placed x threshold advance lines : forall c y,
  (margin + 12 <= threshold)%Q ->
  Forall (placed pagesize) c ->
  Forall (placed pagesize)
    (fst (draw_lines pagesize x threshold advance lines (c, y))).
Proof.
  induction lines as [|line rest IH]; intros c y Hlo Hc; simpl;
    [assumption|].
  destruct (Qltb y threshold) eqn:E; apply IH; try assumption.
  - apply Forall_app. split.
    + apply Forall_app. split; [assumption | now repeat constructor].
    + apply Forall_cons; [simpl; now right | apply Forall_nil].
  - apply Forall_app. split; [assumption|].
    apply Forall_cons; [|apply Forall_nil].
    simpl. apply Qltb_false in E. left. lra.
Qed.

Lemma set_font_placed fontname size c :
  Forall (placed pagesize) c ->
  Forall (placed pagesize) (c ++ [SetFont fontname size]).
Proof.
  intros Hc. apply Forall_app. split; [assumption | now repeat constructor].
Qed.

Lemma draw_title_placed meta c y :
  Forall (placed pagesize) c ->
  Forall (placed pagesize)
    (fst (draw_title metrics dejavu_registered pagesize meta (c, y))).
Proof.
  intros Hc. unfold draw_title.
  destruct (Py.truthy (title meta)); [|assumption].
  match goal with
  | |- context [draw_lines ?pg ?x ?t ?a ?l (?c0, ?y0)] =>
      pose proof (draw_lines_placed x t a l c0 y0) as H;
      destruct (draw_lines pg x t a l (c0, y0)) as [c' y']
  end.
  simpl in *. apply H; [unfold margin; lra | now apply set_font_placed].
Qed.

Lemma draw_info_placed meta c y :
  Forall (placed pagesize) c ->
  Forall (placed pagesize)
    (fst (draw_info dejavu_registered pagesize meta (c, y))).
Proof.
  intros Hc. unfold draw_info. destruct (info meta); [assumption|].
  destruct (Qltb y (margin + 20)) eqn:E; simpl.
  - apply Forall_app. split.
    + apply Forall_app. split; [now apply set_font_placed|].
      now repeat constructor.
    + apply Forall_cons; [simpl; now right | apply Forall_nil].
  - apply Forall_app. split; [now apply set_font_placed|].
    apply Forall_cons; [|apply Forall_nil].
    simpl. apply Qltb_false in E. left. unfold margin in *. lra.
Qed.

Lemma draw_caption_placed caption c y :
  Forall (placed pagesize) c ->
  Forall (placed pagesize)
    (fst (draw_caption metrics dejavu_registered pagesize caption (c, y))).
Proof.
  intros Hc. unfold draw_caption.
  destruct (Py.truthy caption); [|assumption].
  match goal with
  | |- context [draw_lines ?pg ?x ?t ?a ?l (?c0, ?y0)] =>
      pose proof (draw_lines_placed x t a l c0 y0) as H;
      destruct (draw_lines pg x t a l (c0, y0)) as [c' y']
  end.
  simpl in *. apply H; [unfold margin; lra | now apply set_font_placed].
Qed.

Lemma draw_node_placed node c y :
  Forall (placed pagesize) c ->
  Forall (placed pagesize)
    (fst (draw_node metrics dejavu_registered image_at pagesize node (c, y))).
Proof.
  intros Hc. destruct node as [txt level | txt | img_url caption]; simpl.
  - match goal with
    | |- context [draw_lines ?pg ?x ?t ?a ?l (?c0, ?y0)] =>
        pose proof (draw_lines_placed x t a l c0 y0) as H;
        destruct (draw_lines pg x t a l (c0, y0)) as [c' y']
    end.
    simpl in *. apply H; [|now apply set_font_placed].
    unfold margin. destruct (String.eqb level "h1"); lra.
  - match goal with
    | |- context [draw_lines ?pg ?x ?t ?a ?l (?c0, ?y0)] =>
        pose proof (draw_lines_placed x t a l c0 y0) as H;
        destruct (draw_lines pg x t a l (c0, y0)) as [c' y']
    end.
    simpl in *. apply H; [unfold margin; lra | now apply set_font_placed].
  - destruct (image_at img_url) as [| | iw ih drawable]; try assumption.
    destruct (N.eqb iw 0); [assumption|].
    match goal with
    | |- context [if Qltb ?a ?b then _ else _] => destruct (Qltb a b)
    end; destruct drawable; simpl; try assumption;
      try apply draw_caption_placed;
      repeat (apply Forall_app; split); try assumption;
      now repeat constructor.
Qed.

Lemma draw_nodes_placed nodes : forall p,
  Forall (placed pagesize) (fst p) ->
  Forall (placed pagesize)
    (fst (fold_left
            (fun p node => draw_node metrics dejavu_registered image_at pagesize node p)
            nodes p)).
Proof.
  induction nodes as [|node rest IH]; intros [c y] Hp; simpl; [assumption|].
  apply IH. now apply draw_node_placed.
Qed.

Lemma create_pdf_placed meta nodes :
  Forall (placed pagesize)
    (create_pdf metrics dejavu_registered image_at pagesize meta nodes).
Proof.
  unfold create_pdf. apply Forall_app. split; [|now repeat constructor].
  apply draw_nodes_placed.
  destruct (draw_title metrics dejavu_registered pagesize meta ([], page_top pagesize))
    as [c1 y1] eqn:E1.
  apply draw_info_placed.
  change c1 with (fst (c1, y1)). rewrite <- E1.
  apply draw_title_placed. constructor.
Qed.

(** On a page tall enough for the title's threshold the top margin is
    itself above the bottom margin. *)
Lemma placed_above_bottom op :
  (margin + 40 <= page_top pagesize)%Q ->
  placed pagesize op -> above_bottom op.
Proof.
  intros Htall. destruct op; simpl; trivial.
  intros [H | ->]; [assumption | lra].
Qed.

End RenderingFacts.

Lemma Qltb_lt (a b : Q) : (a < b)%Q -> Qltb a b = true.
Proof.
  intros H. destruct (Qltb a b) eqn:E; [reflexivity|].
  apply Qltb_false in E. lra.
Qed.

Lemma Qltb_ge (a b : Q) : (b <= a)%Q -> Qltb a b = false.
Proof.
  intros H. destruct (Qltb a b) eqn:E; [|reflexivity].
  apply Qltb_true in E. lra.
Qed.

(** C6. Every line of title, metadata, heading, paragraph or caption
    text is drawn by one [drawString] call, either where the cursor is,
    with its baseline at least 12 points above the bottom margin, or at
    the top margin; on a page tall enough for the title's threshold that
    makes every baseline at least 12 points above the bottom margin.  In
    the loop over a block's lines, a cursor below the threshold makes the
    loop call [showPage] and reset the cursor to the top margin before it
    draws the line, and a cursor at or above the threshold makes it draw
    the line where the cursor is. *)
Theorem text_lines_never_cross_bottom
    (metrics : font_metrics) (dejavu_registered : bool)
    (image_at : string -> image_file) (pagesize : Q * Q)
    (meta : article) (nodes : list content_node) :
  Forall (placed pagesize)
    (create_pdf metrics dejavu_registered image_at pagesize meta nodes)
  /\ ((margin + 40 <= page_top pagesize)%Q ->
      Forall above_bottom
        (create_pdf metrics dejavu_registered image_at pagesize meta nodes))
  /\ (forall x threshold advance line rest c y,
        (y < threshold)%Q ->
        draw_lines pagesize x threshold advance (line :: rest) (c, y) =
        draw_lines pagesize x threshold advance rest
          ((c ++ [ShowPage]) ++ [DrawString x (page_top pagesize) line],
           (page_top pagesize - advance)%Q))
  /\ (forall x threshold advance line rest c y,
        (threshold <= y)%Q ->
        draw_lines pagesize x threshold advance (line :: rest) (c, y) =
        draw_lines pagesize x threshold advance rest
          (c ++ [DrawString x y line], (y - advance)%Q)).
Proof.
  split; [apply create_pdf_placed|]. split; [|split].
  - intros Htall. eapply Forall_impl; [|apply create_pdf_placed].
    intros op. now apply placed_above_bottom.
  - intros x threshold advance line rest c y Hy. simpl.
    now rewrite (Qltb_lt _ _ Hy).
  - intros x threshold advance line rest c y Hy. simpl.
    now rewrite (Qltb_ge _ _ Hy).
Qed.

Lemma text_lines_never_cross_bottom_witness :
  Forall above_bottom
    (create_pdf monospace false no_images A4
       (scenario_article "My Article" "A. Writer" "" "") scenario_nodes).
Proof.
  refine (proj1 (proj2 (text_lines_never_cross_bottom monospace false
                          no_images A4
                          (scenario_article "My Article" "A. Writer" "" "")
                          scenario_nodes)) _).
  apply Qle_bool_iff. reflexivity.
Defined.

(** *** Font sizes and line advances *)

Lemma draw_lines_drawn pagesize x threshold advance lines : forall c y,
  exists ops y',
    draw_lines pagesize x threshold advance lines (c, y) = (c ++ ops, y')
    /\ lines_drawn (page_top pagesize) x advance y lines ops y'.
Proof.
  induction lines as [|line rest IH]; intros c y; simpl.
  - exists [], y. rewrite app_nil_r. split; [reflexivity | constructor].
  - destruct (Qltb y threshold).
    + destruct (IH ((c ++ [ShowPage]) ++ [DrawString x (page_top pagesize) line])
                   (page_top pagesize - advance)%Q) as [ops [y' [E D]]].
      exists (ShowPage :: DrawString x (page_top pagesize) line :: ops), y'.
      rewrite E, <- !app_assoc. split; [reflexivity | now constructor].
    + destruct (IH (c ++ [DrawString x y line]) (y - advance)%Q)
        as [ops [y' [E D]]].
      exists (DrawString x y line :: ops), y'.
      rewrite E, <- !app_assoc. split; [reflexivity | now constructor].
Qed.

(** C3, as stated, fails.  The metadata line, set at 9 points, moves the
    cursor down by 16 points and then by 6: 22 in all, where 9 + 2 and a
    gap of 6 to 8 would give 17 to 19.  And with a font whose glyphs are
    all 600 thousandths wide, the lines of the title, set at 18 points,
    are drawn 22 points apart, not 18 + 2. *)
Lemma title_lines_are_22_apart :
  draw_info false A4 (scenario_article "" "A. Writer" "" "")
    ([], page_top A4)
  = ([SetFont "Helvetica" 9; DrawString 28 (page_top A4) "By A. Writer"],
     (page_top A4 - 16 - 6)%Q)
  /\ ~ (16 == 9 + 2)%Q
  /\ create_pdf monospace false no_images A4 headline_article [] =
       [SetFont "Helvetica" 18;
        DrawString 28 (page_top A4)
          "A very long headline that certainly needs a";
        DrawString 28 (page_top A4 - 22)%Q
          "second line because it does not fit the width of";
        DrawString 28 (page_top A4 - 22 - 22)%Q "the page";
        Save]
  /\ ~ (22 == 18 + 2)%Q.
Proof. repeat split; discriminate. Qed.

(** C3, amended. Every text block selects its font size before it draws
    its lines and wraps its text at that size: title 18, level-1 heading
    14, other headings 12, paragraph 11, caption 9, metadata line 9.
    After each line the cursor moves down by the font size plus 2 in
    headings, paragraphs and captions, by 22 in the title and by 16 after
    the metadata line.  After the block it moves down by 6 more (title,
    metadata line, heading, caption) or 8 more (paragraph); after a drawn
    image it is 6 below the image. *)
Theorem block_fonts_and_advances
    (metrics : font_metrics) (dejavu_registered : bool)
    (image_at : string -> image_file) (pagesize : Q * Q)
    (c : list canvas_op) (y : Q) :
  let fontname := register_dejavu dejavu_registered in
  let top := page_top pagesize in
  let wrap text size :=
    split_text_to_lines metrics text fontname size (usable_w pagesize) in
  let node n := draw_node metrics dejavu_registered image_at pagesize n (c, y) in
  (forall meta, Py.truthy (title meta) = true ->
     exists ops y',
       draw_title metrics dejavu_registered pagesize meta (c, y)
         = (c ++ SetFont fontname 18 :: ops, (y' - 6)%Q)
       /\ lines_drawn top margin 22 y (wrap (title meta) 18%Q) ops y')
  /\ (forall meta, info meta <> [] ->
     exists ops y',
       draw_info dejavu_registered pagesize meta (c, y)
         = (c ++ SetFont fontname 9 :: ops, (y' - 6)%Q)
       /\ lines_drawn top margin 16 y [Py.join "  |  " (info meta)] ops y')
  /\ (forall txt level,
     exists ops y',
       node (Heading txt level)
         = (c ++ SetFont fontname (heading_size level) :: ops, (y' - 6)%Q)
       /\ lines_drawn top margin (heading_size level + 2)%Q y
            (wrap txt (heading_size level)) ops y')
  /\ (forall txt,
     exists ops y',
       node (Paragraph txt) = (c ++ SetFont fontname 11 :: ops, (y' - 8)%Q)
       /\ lines_drawn top margin (11 + 2)%Q y (wrap txt 11%Q) ops y')
  /\ (forall caption, Py.truthy caption = true ->
     exists ops y',
       draw_caption metrics dejavu_registered pagesize caption (c, y)
         = (c ++ SetFont fontname 9 :: ops, (y' - 6)%Q)
       /\ lines_drawn top (margin + 4)%Q (9 + 2)%Q y (wrap caption 9%Q) ops y')
  /\ (forall img_url caption iw ih,
     image_at img_url = Decoded iw ih true -> iw <> 0%N ->
     let display_w := py_min (usable_w pagesize) (inject_Z (Z.of_N iw)) in
     let display_h :=
       (display_w * (inject_Z (Z.of_N ih) / inject_Z (Z.of_N iw)))%Q in
     exists break y0,
       ((break = [] /\ y0 = y) \/ (break = [ShowPage] /\ y0 = top))
       /\ node (Image img_url caption)
          = draw_caption metrics dejavu_registered pagesize caption
              (c ++ break ++ [DrawImage margin (y0 - display_h)%Q display_w display_h],
               (y0 - (display_h + 6))%Q)).
Proof.
  intros fontname top wrap node. repeat split.
  - intros meta Ht. unfold draw_title. rewrite Ht.
    destruct (draw_lines_drawn pagesize margin (margin + 40)%Q 22
                (wrap (title meta) 18%Q) (c ++ [SetFont fontname 18]) y)
      as [ops [y' [E D]]].
    exists ops, y'. split; [|exact D].
    unfold wrap, fontname in E. rewrite E. now rewrite <- app_assoc.
  - intros meta Hinfo. unfold draw_info.
    destruct (info meta) as [|i rest] eqn:Ei; [now elim Hinfo|].
    destruct (Qltb y (margin + 20)).
    + exists [ShowPage; DrawString margin top (Py.join "  |  " (i :: rest))],
        (top - 16)%Q.
      split; [now rewrite <- !app_assoc | repeat constructor].
    + exists [DrawString margin y (Py.join "  |  " (i :: rest))], (y - 16)%Q.
      split; [now rewrite <- !app_assoc | repeat constructor].
  - intros txt level. unfold node, draw_node. fold (heading_size level).
    destruct (draw_lines_drawn pagesize margin (margin + heading_size level * 2)%Q
                (heading_size level + 2)%Q (wrap txt (heading_size level))
                (c ++ [SetFont fontname (heading_size level)]) y)
      as [ops [y' [E D]]].
    exists ops, y'. split; [|exact D].
    unfold wrap, fontname in E. rewrite E. now rewrite <- app_assoc.
  - intros txt. unfold node, draw_node.
    destruct (draw_lines_drawn pagesize margin (margin + 11 * 2)%Q
                (11 + 2)%Q (wrap txt 11%Q) (c ++ [SetFont fontname 11]) y)
      as [ops [y' [E D]]].
    exists ops, y'. split; [|exact D].
    unfold wrap, fontname in E. rewrite E. now rewrite <- app_assoc.
  - intros caption Hc. unfold draw_caption. rewrite Hc.
    destruct (draw_lines_drawn pagesize (margin + 4)%Q (margin + 12)%Q 11
                (wrap caption 9%Q) (c ++ [SetFont fontname 9]) y)
      as [ops [y' [E D]]].
    exists ops, y'. split; [|exact D].
    unfold wrap, fontname in E. rewrite E. now rewrite <- app_assoc.
  - intros img_url caption iw ih Himg Hiw display_w display_h.
    unfold node, draw_node. rewrite Himg.
    apply N.eqb_neq in Hiw. rewrite Hiw.
    fold display_w. fold display_h.
    destruct (Qltb (y - display_h) margin).
    + exists [ShowPage], top. split; [now right|].
      now rewrite <- !app_assoc.
    + exists [], y. split; [now left | reflexivity].
Qed.

Lemma block_fonts_and_advances_witness :
  exists ops y',
    draw_title monospace false A4 headline_article ([], page_top A4)
    = ([] ++ SetFont "Helvetica" 18 :: ops, (y' - 6)%Q)
    /\ lines_drawn (page_top A4) margin 22 (page_top A4)
         (split_text_to_lines monospace headline "Helvetica" 18 (usable_w A4))
         ops y'.
Proof.
  exact (proj1 (block_fonts_and_advances monospace false no_images A4
                  [] (page_top A4))
               headline_article eq_refl).
Defined.

(** *** Image scaling *)

Lemma py_min_le_r (a b : Q) : (py_min a b <= b)%Q.
Proof.
  unfold py_min. destruct (Qltb b a) eqn:E; [lra|].
  apply Qltb_false in E. exact E.
Qed.

Lemma inject_N_pos (n : N) : n <> 0%N -> (0 < inject_Z (Z.of_N n))%Q.
Proof.
  intros H. change 0%Q with (inject_Z 0). rewrite <- Zlt_Qlt. lia.
Qed.

Section ImageFacts.

Variable metrics : font_metrics.
Variable dejavu_registered : bool.
Variable image_at : string -> image_file.
Variable pagesize : Q * Q.

Lemma text_op_to_scale nodes ops :
  Forall text_op ops -> Forall (to_scale image_at pagesize nodes) ops.
Proof.
  apply Forall_impl. intros [] H; simpl in *; trivial. contradiction.
Qed.

Lemma lines_drawn_text top x advance y lines ops y' :
  lines_drawn top x advance y lines ops y' -> Forall text_op ops.
Proof. induction 1; repeat constructor; assumption. Qed.

Lemma draw_lines_text x threshold advance lines c y :
  exists ops y',
    draw_lines pagesize x threshold advance lines (c, y) = (c ++ ops, y')
    /\ Forall text_op ops.
Proof.
  destruct (draw_lines_drawn pagesize x threshold advance lines c y)
    as [ops [y' [E D]]].
  exists ops, y'. split; [exact E | eapply lines_drawn_text; exact D].
Qed.

Lemma draw_title_text meta c y :
  exists ops y',
    draw_title metrics dejavu_registered pagesize meta (c, y) = (c ++ ops, y')
    /\ Forall text_op ops.
Proof.
  unfold draw_title. destruct (Py.truthy (title meta)).
  - match goal with
    | |- context [draw_lines ?pg ?x ?t ?a ?l (?c0 ++ [?f], ?y0)] =>
        destruct (draw_lines_text x t a l (c0 ++ [f]) y0) as [ops [y' [E T]]];
        rewrite E; exists (f :: ops), (y' - 6)%Q
    end.
    rewrite <- app_assoc. split; [reflexivity | now constructor].
  - exists [], y. rewrite app_nil_r. split; [reflexivity | constructor].
Qed.

Lemma draw_info_text meta c y :
  exists ops y',
    draw_info dejavu_registered pagesize meta (c, y) = (c ++ ops, y')
    /\ Forall text_op ops.
Proof.
  unfold draw_info. destruct (info meta).
  - exists [], y. rewrite app_nil_r. split; [reflexivity | constructor].
  - destruct (Qltb y (margin + 20)); eexists; eexists;
      rewrite <- !app_assoc; (split; [reflexivity | now repeat constructor]).
Qed.

Lemma draw_caption_text caption c y :
  exists ops y',
    draw_caption metrics dejavu_registered pagesize caption (c, y) = (c ++ ops, y')
    /\ Forall text_op ops.
Proof.
  unfold draw_caption. destruct (Py.truthy caption).
  - match goal with
    | |- context [draw_lines ?pg ?x ?t ?a ?l (?c0 ++ [?f], ?y0)] =>
        destruct (draw_lines_text x t a l (c0 ++ [f]) y0) as [ops [y' [E T]]];
        rewrite E; exists (f :: ops), (y' - 6)%Q
    end.
    rewrite <- app_assoc. split; [reflexivity | now constructor].
  - exists [], y. rewrite app_nil_r. split; [reflexivity | constructor].
Qed.

Lemma image_to_scale nodes img_url caption iw ih x y :
  In (Image img_url caption) nodes ->
  image_at img_url = Decoded iw ih true -> iw <> 0%N ->
  to_scale image_at pagesize nodes (DrawImage x y (display_w pagesize iw) (display_h pagesize iw ih)).
Proof.
  intros Hin Himg Hiw. simpl.
  exists img_url, caption, iw, ih.
  pose proof (inject_N_pos iw Hiw) as Hpos.
  repeat split; try assumption.
  - apply py_min_le_r.
  - unfold display_h. field. lra.
  - intros Hw. unfold display_h. field. split; [lra | exact Hw].
Qed.

(** One node appends calls to the canvas; its [drawImage] calls are to
    scale, and a decoded, drawable image is drawn. *)
Lemma draw_node_appends nodes node c y :
  In node nodes ->
  exists ops y',
    draw_node metrics dejavu_registered image_at pagesize node (c, y)
      = (c ++ ops, y')
    /\ Forall (to_scale image_at pagesize nodes) ops
    /\ (forall img_url caption iw ih,
          node = Image img_url caption ->
          image_at img_url = Decoded iw ih true -> iw <> 0%N ->
          exists x0 y0,
            In (DrawImage x0 y0 (display_w pagesize iw) (display_h pagesize iw ih)) ops).
Proof.
  intros Hin. destruct node as [txt level | txt | img_url caption]; simpl.
  - match goal with
    | |- context [draw_lines ?pg ?x ?t ?a ?l (?c0 ++ [?f], ?y0)] =>
        destruct (draw_lines_text x t a l (c0 ++ [f]) y0) as [ops [y' [E T]]];
        rewrite E; exists (f :: ops), (y' - 6)%Q
    end.
    rewrite <- app_assoc. split; [reflexivity|]. split; [|discriminate].
    apply text_op_to_scale. now constructor.
  - match goal with
    | |- context [draw_lines ?pg ?x ?t ?a ?l (?c0 ++ [?f], ?y0)] =>
        destruct (draw_lines_text x t a l (c0 ++ [f]) y0) as [ops [y' [E T]]];
        rewrite E; exists (f :: ops), (y' - 8)%Q
    end.
    rewrite <- app_assoc. split; [reflexivity|]. split; [|discriminate].
    apply text_op_to_scale. now constructor.
  - destruct (image_at img_url) as [| | iw ih drawable] eqn:Himg.
    + exists [], y. rewrite app_nil_r. repeat split; [constructor|].
      intros u k iw ih E. injection E as <- <-. congruence.
    + exists [], y. rewrite app_nil_r. repeat split; [constructor|].
      intros u k iw ih E. injection E as <- <-. congruence.
    + destruct (N.eqb iw 0) eqn:Hiw.
      * exists [], y. rewrite app_nil_r. repeat split; [constructor|].
        intros u k iw' ih' E. injection E as <- <-.
        rewrite Himg. intros E. injection E as <- <- _.
        apply N.eqb_eq in Hiw. congruence.
      * apply N.eqb_neq in Hiw.
        fold (display_w pagesize iw). fold (display_h pagesize iw ih).
        destruct drawable.
        -- match goal with
           | |- context [if Qltb ?a ?b then _ else _] => destruct (Qltb a b)
           end;
           match goal with
           | |- context [draw_caption _ _ _ _ (?c0 ++ [?f], ?y0)] =>
               destruct (draw_caption_text caption (c0 ++ [f]) y0)
                 as [ops [y' [E T]]];
               rewrite E
           end.
           ++ exists ([ShowPage] ++ DrawImage margin (page_top pagesize - display_h pagesize iw ih)%Q
                        (display_w pagesize iw) (display_h pagesize iw ih) :: ops), y'.
              rewrite <- !app_assoc. split; [reflexivity|]. split.
              ** constructor; [exact I|]. constructor.
                 --- eapply image_to_scale; eassumption.
                 --- now apply text_op_to_scale.
              ** intros u k iw' ih' En Ei _. injection En as <- <-.
                 rewrite Himg in Ei. injection Ei as <- <-.
                 eexists; eexists. right. left. reflexivity.
           ++ exists (DrawImage margin (y - display_h pagesize iw ih)%Q
                        (display_w pagesize iw) (display_h pagesize iw ih) :: ops), y'.
              rewrite <- !app_assoc. split; [reflexivity|]. split.
              ** constructor.
                 --- eapply image_to_scale; eassumption.
                 --- now apply text_op_to_scale.
              ** intros u k iw' ih' En Ei _. injection En as <- <-.
                 rewrite Himg in Ei. injection Ei as <- <-.
                 eexists; eexists. left. reflexivity.
        -- match goal with
           | |- context [if Qltb ?a ?b then _ else _] => destruct (Qltb a b)
           end.
           ++ exists [ShowPage], (page_top pagesize).
              split; [reflexivity|]. split; [now repeat constructor|].
              intros u k iw' ih' E. injection E as <- <-. congruence.
           ++ exists [], y. rewrite app_nil_r. repeat split; [constructor|].
              intros u k iw' ih' E. injection E as <- <-. congruence.
Qed.

Lemma draw_nodes_appends nodes rest : forall c y,
  incl rest nodes ->
  exists ops y',
    fold_left
      (fun p node => draw_node metrics dejavu_registered image_at pagesize node p)
      rest (c, y) = (c ++ ops, y')
    /\ Forall (to_scale image_at pagesize nodes) ops
    /\ (forall img_url caption iw ih,
          In (Image img_url caption) rest ->
          image_at img_url = Decoded iw ih true -> iw <> 0%N ->
          exists x0 y0,
            In (DrawImage x0 y0 (display_w pagesize iw) (display_h pagesize iw ih)) ops).
Proof.
  induction rest as [|node rest IH]; intros c y Hincl; cbn [fold_left].
  - exists [], y. rewrite app_nil_r. repeat split; [constructor|].
    intros u k iw ih [].
  - destruct (draw_node_appends nodes node c y) as [ops1 [y1 [E1 [S1 D1]]]].
    { apply Hincl. now left. }
    rewrite E1.
    destruct (IH (c ++ ops1) y1) as [ops2 [y2 [E2 [S2 D2]]]].
    { intros n Hn. apply Hincl. now right. }
    rewrite E2. exists (ops1 ++ ops2), y2. rewrite app_assoc.
    split; [reflexivity|]. split; [apply Forall_app; now split|].
    intros u k iw ih [Hn|Hn] Himg Hiw.
    + destruct (D1 u k iw ih Hn Himg Hiw) as [x0 [y0 H]].
      exists x0, y0. apply in_or_app. now left.
    + destruct (D2 u k iw ih Hn Himg Hiw) as [x0 [y0 H]].
      exists x0, y0. apply in_or_app. now right.
Qed.

Lemma create_pdf_to_scale meta nodes :
  Forall (to_scale image_at pagesize nodes)
    (create_pdf metrics dejavu_registered image_at pagesize meta nodes)
  /\ (forall img_url caption iw ih,
        In (Image img_url caption) nodes ->
        image_at img_url = Decoded iw ih true -> iw <> 0%N ->
        exists x0 y0,
          In (DrawImage x0 y0 (display_w pagesize iw) (display_h pagesize iw ih))
             (create_pdf metrics dejavu_registered image_at pagesize meta nodes)).
Proof.
  unfold create_pdf.
  destruct (draw_title_text meta [] (page_top pagesize)) as [t [y1 [E1 T1]]].
  rewrite E1.
  destruct (draw_info_text meta ([] ++ t) y1) as [i [y2 [E2 T2]]].
  rewrite E2.
  destruct (draw_nodes_appends nodes nodes (([] ++ t) ++ i) y2 (incl_refl _))
    as [ops [y3 [E3 [S3 D3]]]].
  rewrite E3. simpl fst. split.
  - repeat (apply Forall_app; split); try assumption;
      try (now apply text_op_to_scale); now repeat constructor.
  - intros u k iw ih Hin Himg Hiw.
    destruct (D3 u k iw ih Hin Himg Hiw) as [x0 [y0 H]].
    exists x0, y0. apply in_or_app. left. apply in_or_app. now right.
Qed.

End ImageFacts.

(** C7. Every [drawImage] call of [create_pdf] draws a decoded image of
    the node stream, of pixel size [(iw, ih)], at width
    [min(usable_w, iw)], which does not exceed [iw], and at a height
    whose ratio to the width is [ih / iw]; and every image node that is
    decoded with a width other than zero and can be drawn is drawn at
    that size. *)
Theorem images_drawn_to_scale
    (metrics : font_metrics) (dejavu_registered : bool)
    (image_at : string -> image_file) (pagesize : Q * Q)
    (meta : article) (nodes : list content_node) :
  Forall (to_scale image_at pagesize nodes)
    (create_pdf metrics dejavu_registered image_at pagesize meta nodes)
  /\ (forall img_url caption iw ih,
        In (Image img_url caption) nodes ->
        image_at img_url = Decoded iw ih true -> iw <> 0%N ->
        exists x0 y0,
          In (DrawImage x0 y0 (display_w pagesize iw) (display_h pagesize iw ih))
             (create_pdf metrics dejavu_registered image_at pagesize meta nodes)).
Proof. apply create_pdf_to_scale. Qed.

Lemma images_drawn_to_scale_witness :
  exists x0 y0,
    In (DrawImage x0 y0 (display_w A4 1000) (display_h A4 1000 500))
       (create_pdf monospace false wide_image A4 empty_article
          [Image "https://example.com/a.jpg" "A caption"]).
Proof.
  refine (proj2 (images_drawn_to_scale monospace false wide_image A4
                   empty_article [Image "https://example.com/a.jpg" "A caption"])
                "https://example.com/a.jpg" "A caption" 1000%N 500%N
                (or_introl eq_refl) eq_refl _).
  discriminate.
Defined.

Lemma split_text_to_lines_keeps_words_witness :
  In "incomprehensibilities"
     (split_text_to_lines monospace "an incomprehensibilities list"
        "Courier" 11 50).
Proof.
  refine (proj2 (proj2 (split_text_to_lines_keeps_words monospace
                          "an incomprehensibilities list" "Courier" 11 50))
                _ "incomprehensibilities" _ _).
  - reflexivity.
  - right. left. reflexivity.
  - reflexivity.
Defined.

(** * Further properties *)

Lemma split_join_words ws :
  Forall Py.word ws -> Py.split (Py.join " " ws) = ws.
Proof.
  induction ws as [|x rest IH]; intros H; [reflexivity|].
  inversion H as [|? ? Hx Hrest]; subst.
  destruct rest as [|y rest'].
  - simpl. now apply split_word.
  - rewrite join_cons by discriminate.
    change (" " ++ Py.join " " (y :: rest'))%string
      with (String " " (Py.join " " (y :: rest'))).
    rewrite split_app_space by reflexivity.
    rewrite (split_word x) by assumption. now rewrite IH.
Qed.

Lemma join_words_starts_solid w ws :
  Py.word w -> starts_solid (Py.join " " (w :: ws)) = true.
Proof.
  intros [Hne Hw]. destruct ws as [|y ws'].
  - simpl. destruct w; [now elim Hne|]. simpl in *.
    now apply andb_prop in Hw as [Hw _].
  - rewrite join_cons by discriminate. apply starts_solid_app.
    destruct w; [now elim Hne|]. simpl in *.
    now apply andb_prop in Hw as [Hw _].
Qed.

(** The candidate line, when the current line is the words [cw] joined by
    single spaces. *)
Lemma candidate_join cw w :
  Forall Py.word cw -> Py.word w ->
  Py.strip ((Py.join " " cw ++ " ") ++ w) = Py.join " " (cw ++ [w]).
Proof.
  intros Hcw Hw. rewrite candidate_suffix by assumption.
  destruct cw as [|x rest].
  - reflexivity.
  - inversion Hcw as [|? ? Hx Hrest]; subst.
    rewrite lstrip_solid.
    + rewrite join_app by discriminate. simpl. now rewrite append_assoc.
    + apply starts_solid_app. now apply join_words_starts_solid.
Qed.

Lemma wrap_loop_from_nil metrics fontname fontsize max_width ws : forall lines cur,
  wrap_loop metrics fontname fontsize max_width ws lines cur =
  lines ++ wrap_loop metrics fontname fontsize max_width ws [] cur.
Proof.
  induction ws as [|w ws IH]; intros lines cur; simpl.
  - now destruct (Py.truthy cur); rewrite ?app_nil_r.
  - destruct (Qle_bool _ max_width).
    + apply IH.
    + rewrite IH. rewrite (IH (if Py.truthy cur then [] ++ [cur] else [])).
      destruct (Py.truthy cur); simpl; now rewrite <- ?app_assoc.
Qed.

Lemma candidate_after_word' cur w :
  starts_solid cur = true -> Py.word w ->
  Py.strip ((cur ++ " ") ++ w) = ((cur ++ " ") ++ w)%string.
Proof.
  intros Hc Hw. rewrite candidate_suffix by assumption.
  rewrite lstrip_solid; [reflexivity|]. now apply starts_solid_app.
Qed.

Definition fits (metrics : font_metrics) (fontname : string)
    (fontsize max_width : Q) (ln : string) : Prop :=
  (line_width metrics fontname fontsize ln <= max_width)%Q.

(** A line of the result: words joined by single spaces, and either
    within the width or one word alone. *)
Definition wrapped_line (metrics : font_metrics) (fontname : string)
    (fontsize max_width : Q) (ln : string) : Prop :=
  exists lw, lw <> [] /\ Forall Py.word lw /\ ln = Py.join " " lw
    /\ (fits metrics fontname fontsize max_width ln \/ exists w, lw = [w]).

Lemma join_words_truthy cw :
  Forall Py.word cw -> Py.truthy (Py.join " " cw) = negb (match cw with [] => true | _ => false end).
Proof.
  intros H. destruct cw as [|x rest]; [reflexivity|].
  inversion H as [|? ? Hx _]; subst.
  pose proof (join_words_starts_solid x rest Hx) as Hs.
  destruct (Py.join " " (x :: rest)); [discriminate | reflexivity].
Qed.

Section WrapShape.

Variable metrics : font_metrics.
Variables (fontname : string) (fontsize max_width : Q).

Let loop := wrap_loop metrics fontname fontsize max_width.
Let line_ok := wrapped_line metrics fontname fontsize max_width.
Let full := greedy metrics fontname fontsize max_width.

Lemma wrap_shape ws : forall cw,
  Forall Py.word ws -> Forall Py.word cw ->
  (cw = [] \/ fits metrics fontname fontsize max_width (Py.join " " cw)
   \/ exists w, cw = [w]) ->
  Forall line_ok (loop ws [] (Py.join " " cw))
  /\ full (loop ws [] (Py.join " " cw))
  /\ (cw <> [] -> exists l rest more,
        loop ws [] (Py.join " " cw) = l :: rest /\ Py.split l = cw ++ more)
  /\ (cw = [] -> ws <> [] -> exists l rest,
        loop ws [] (Py.join " " cw) = l :: rest
        /\ hd_error (Py.split l) = hd_error ws).
Proof.
  unfold loop.
  induction ws as [|w ws IH]; intros cw Hws Hcw Hcur.
  - simpl. rewrite join_words_truthy by assumption.
    destruct cw as [|x rest]; simpl.
    + repeat split; try constructor; intros H; now elim H.
    + assert (Hline : line_ok (Py.join " " (x :: rest))).
      { exists (x :: rest). repeat split; try assumption; try discriminate.
        destruct Hcur as [H|[H|H]]; [discriminate | now left | now right]. }
      repeat split.
      * now constructor.
      * intros _. exists (Py.join " " (x :: rest)), [], [].
        split; [reflexivity|]. rewrite app_nil_r. now apply split_join_words.
      * discriminate.
  - inversion Hws as [|? ? Hw Hrest]; subst.
    cbn [wrap_loop]. rewrite candidate_join by assumption.
    assert (Hcw' : Forall Py.word (cw ++ [w]))
      by (apply Forall_app; split; [assumption | now constructor]).
    destruct (Qle_bool (stringWidth metrics (Py.join " " (cw ++ [w])) fontname fontsize)
                max_width) eqn:E.
    + destruct (IH (cw ++ [w]) Hrest Hcw') as [H1 [H2 [H3 H4]]].
      { right. left. apply Qle_bool_iff in E. exact E. }
      split; [exact H1|]. split; [exact H2|]. split.
      * intros _. destruct H3 as [l [rest [more [E1 E2]]]].
        { intros C. apply app_eq_nil in C as [_ C]. discriminate. }
        exists l, rest, (w :: more). split; [exact E1|].
        now rewrite E2, <- app_assoc.
      * intros -> _. destruct H3 as [l [rest [more [E1 E2]]]];
          [discriminate|].
        exists l, rest. split; [exact E1|]. now rewrite E2.
    + rewrite wrap_loop_from_nil.
      destruct (IH [w] Hrest) as [H1 [H2 [H3 _]]].
      { constructor; [assumption | constructor]. }
      { right. right. now exists w. }
      destruct H3 as [l' [rest' [more [E1 E2]]]]; [discriminate|].
      simpl Py.join in *. rewrite E1 in *.
      rewrite join_words_truthy by assumption.
      destruct cw as [|x cwr]; simpl negb; cbv iota.
      * simpl. repeat split; try assumption.
        -- intros H; now elim H.
        -- intros _ _. exists l', rest'. split; [reflexivity|].
           now rewrite E2.
      * assert (Hline : line_ok (Py.join " " (x :: cwr))).
        { exists (x :: cwr). repeat split; try assumption; try discriminate.
          destruct Hcur as [H|[H|H]]; [discriminate | now left | now right]. }
        simpl app. repeat split.
        -- now constructor.
        -- exists w. split; [now rewrite E2|].
           unfold line_width.
           rewrite <- (candidate_join (x :: cwr) w) in E by assumption.
           rewrite candidate_after_word' in E.
           ++ apply Qnot_le_lt. intros C. apply Qle_bool_iff in C.
              exact (eq_true_false_abs _ C E).
           ++ now apply join_words_starts_solid; inversion Hcw.
           ++ assumption.
        -- exact H2.
        -- intros _. exists (Py.join " " (x :: cwr)), (l' :: rest'), [].
           split; [reflexivity|]. rewrite app_nil_r.
           now apply split_join_words.
        -- discriminate.
Qed.

End WrapShape.




(** X2. Every line that [split_text_to_lines] returns is its own words
    joined by single spaces: no whitespace at either end, none doubled,
    and no whitespace other than the space. *)
Theorem wrapped_lines_are_single_spaced
    (metrics : font_metrics) (text fontname : string) (fontsize max_width : Q) :
  Forall (fun ln => ln = Py.join " " (Py.split ln))
    (split_text_to_lines metrics text fontname fontsize max_width).
Proof.
  unfold split_text_to_lines.
  destruct (wrap_shape metrics fontname fontsize max_width (Py.split text) [])
    as [H _]; [apply split_words | constructor | now left |].
  simpl in H. eapply Forall_impl; [|exact H].
  intros ln [lw [Hne [Hw [-> _]]]]. now rewrite split_join_words.
Qed.















(** The scan for the longest text: either no candidate is longer than
    [max_len] and [best] stays, or the result is the first candidate of
    the greatest length. *)
Lemma longest_text_first_max candidates : forall best max_len,
  (Forall (fun c => text_len c <= max_len) candidates
   /\ longest_text candidates best max_len = best)
  \/ exists l1 c l2,
       candidates = l1 ++ c :: l2
       /\ longest_text candidates best max_len = c
       /\ max_len < text_len c
       /\ Forall (fun d => text_len d < text_len c) l1
       /\ Forall (fun d => text_len d <= text_len c) l2.
Proof.
  induction candidates as [|c rest IH]; intros best max_len; simpl.
  - left. split; [constructor | reflexivity].
  - fold (text_len c). destruct (Nat.ltb max_len (text_len c)) eqn:E.
    + apply Nat.ltb_lt in E. right.
      destruct (IH c (text_len c)) as [[Hall Hr] | [l1 [c' [l2 [-> [Hr [Hlt [H1 H2]]]]]]]].
      * exists [], c, rest. repeat split; try assumption. constructor.
      * exists (c :: l1), c', l2. repeat split; try assumption; [lia|].
        constructor; assumption.
    + apply Nat.ltb_ge in E.
      destruct (IH best max_len) as [[Hall Hr] | [l1 [c' [l2 [-> [Hr [Hlt [H1 H2]]]]]]]].
      * left. split; [now constructor | assumption].
      * right. exists (c :: l1), c', l2. repeat split; try assumption.
        constructor; [lia | assumption].
Qed.

(** X7. The fallback content is the first [article] element; without
    one, the first [main] element; without either, the [div] or
    [section] whose text is longest, the first of them when several are
    as long, and the body (or the document, when there is no body) when
    no [div] or [section] has any text. *)
Theorem fallback_content_choice (soup : dom) :
  (forall a, find "article" soup = Some a -> fallback_content soup = a)
  /\ (forall m, find "article" soup = None -> find "main" soup = Some m ->
      fallback_content soup = m)
  /\ (find "article" soup = None -> find "main" soup = None ->
      let candidates := find_all ["div"; "section"] soup in
      let default := match find "body" soup with Some b => b | None => soup end in
      (Forall (fun c => text_len c = 0) candidates
       /\ fallback_content soup = default)
      \/ exists l1 c l2,
           candidates = l1 ++ c :: l2
           /\ fallback_content soup = c
           /\ Forall (fun d => text_len d < text_len c) l1
           /\ Forall (fun d => text_len d <= text_len c) l2).
Proof.
  split; [|split].
  - intros a Ha. unfold fallback_content. now rewrite Ha.
  - intros m Ha Hm. unfold fallback_content. now rewrite Ha, Hm.
  - intros Ha Hm candidates default. unfold fallback_content.
    rewrite Ha, Hm. simpl or_else. cbv iota.
    fold candidates. fold default.
    destruct (longest_text_first_max candidates default 0)
      as [[Hall Hr] | [l1 [c [l2 [E [Hr [_ [H1 H2]]]]]]]].
    + left. split; [|exact Hr].
      eapply Forall_impl; [|exact Hall]. simpl. lia.
    + right. exists l1, c, l2. now repeat split.
Qed.

Lemma fallback_content_choice_witness :
  fallback_content main_and_div_page = Tag "main" [] [Text "main text"].
Proof.
  exact (proj1 (proj2 (fallback_content_choice main_and_div_page))
               (Tag "main" [] [Text "main text"]) eq_refl eq_refl).
Defined.

Lemma first_source_choice imgs :
  (Forall (fun img => image_source img = None) imgs
   /\ first_source imgs = None)
  \/ exists l1 img l2 s,
       imgs = l1 ++ img :: l2
       /\ Forall (fun i => image_source i = None) l1
       /\ image_source img = Some s
       /\ first_source imgs = Some s.
Proof.
  induction imgs as [|img rest IH]; simpl.
  - left. split; [constructor | reflexivity].
  - destruct (image_source img) as [s|] eqn:E.
    + right. exists [], img, rest, s. repeat split; [constructor | assumption].
    + destruct IH as [[Hall Hn] | [l1 [i [l2 [s [-> [H1 [Hi Hs]]]]]]]].
      * left. split; [now constructor | assumption].
      * right. exists (img :: l1), i, l2, s.
        repeat split; try assumption. now constructor.
Qed.

(** X8. The lead image is the [og:image] content, resolved against the
    base URL, when the page has one.  Otherwise it is the resolved source
    of the first [img] element that has one among the first 30 of the
    page, and it is empty when none of those 30 has a source, whatever
    images follow. *)
Theorem lead_image_choice
    (urljoin : string -> string -> string) (soup : dom) (base_url : string) :
  (forall content, og_image_content soup = Some content ->
     extract_lead_image urljoin soup base_url = urljoin base_url content)
  /\ (og_image_content soup = None ->
      let imgs := firstn 30 (find_all ["img"] soup) in
      (Forall (fun img => image_source img = None) imgs
       /\ extract_lead_image urljoin soup base_url = "")
      \/ exists l1 img l2 s,
           imgs = l1 ++ img :: l2
           /\ Forall (fun i => image_source i = None) l1
           /\ image_source img = Some s
           /\ extract_lead_image urljoin soup base_url = urljoin base_url s).
Proof.
  split.
  - intros content E. unfold extract_lead_image.
    unfold og_image_content in E. now rewrite E.
  - intros E imgs. unfold extract_lead_image.
    unfold og_image_content in E. rewrite E. fold imgs.
    destruct (first_source_choice imgs)
      as [[Hall Hn] | [l1 [img [l2 [s [Ei [H1 [Hi Hs]]]]]]]].
    + left. rewrite Hn. now split.
    + right. exists l1, img, l2, s. rewrite Hs. now repeat split.
Qed.

Lemma lead_image_choice_witness :
  let imgs := firstn 30 (find_all ["img"] late_image_page) in
  (Forall (fun img => image_source img = None) imgs
   /\ extract_lead_image (fun _ src => src) late_image_page
        "https://example.com/" = "")
  \/ exists l1 img l2 s,
       imgs = l1 ++ img :: l2
       /\ Forall (fun i => image_source i = None) l1
       /\ image_source img = Some s
       /\ extract_lead_image (fun _ src => src) late_image_page
            "https://example.com/" = s.
Proof.
  exact (proj2 (lead_image_choice (fun _ src => src) late_image_page
                  "https://example.com/") eq_refl).
Defined.

Lemma strip_idempotent s : Py.strip (Py.strip s) = Py.strip s.
Proof.
  destruct (strip_empty_or_solid s) as [E | H].
  - now rewrite E.
  - now apply strip_solid.
Qed.

Lemma first_meta_stripped soup keys a :
  first_meta soup keys = Some a -> Py.strip a = a.
Proof.
  induction keys as [|key rest IH]; simpl; [discriminate|].
  destruct (meta_content soup key).
  - intros E. injection E as <-. apply strip_idempotent.
  - exact IH.
Qed.

Lemma extract_author_stripped soup :
  Py.strip (extract_author soup) = extract_author soup.
Proof.
  unfold extract_author.
  destruct (first_meta soup _) as [a|] eqn:E; simpl.
  - destruct (Py.is_empty a).
    + match goal with
      | |- context [match ?sel with Some _ => _ | None => _ end] =>
          destruct sel
      end; simpl; [apply get_text_stripped|].
      eapply first_meta_stripped; eassumption.
    + simpl. eapply first_meta_stripped; eassumption.
  - match goal with
    | |- context [match ?sel with Some _ => _ | None => _ end] =>
        destruct sel
    end; simpl; [apply get_text_stripped | reflexivity].
Qed.

Lemma extract_date_stripped soup :
  Py.strip (extract_date soup) = extract_date soup.
Proof.
  unfold extract_date.
  destruct (first_meta soup _) as [a|] eqn:E; simpl.
  - destruct (Py.is_empty a).
    + destruct (find "time" soup) as [t|]; simpl.
      * destruct (nonempty_attr (get t "datetime")); simpl;
          [apply strip_idempotent | apply get_text_stripped].
      * eapply first_meta_stripped; eassumption.
    + simpl. eapply first_meta_stripped; eassumption.
  - destruct (find "time" soup) as [t|]; simpl; [|reflexivity].
    destruct (nonempty_attr (get t "datetime")); simpl;
      [apply strip_idempotent | apply get_text_stripped].
Qed.

Lemma extract_tags_stripped soup :
  Py.strip (extract_tags soup) = extract_tags soup.
Proof.
  unfold extract_tags. destruct (find_meta "name" "keywords" soup) as [t|];
    [|reflexivity].
  destruct (nonempty_attr (get t "content")); [apply strip_idempotent | reflexivity].
Qed.

Lemma extract_title_stripped soup :
  Py.strip (extract_title soup) = extract_title soup.
Proof.
  unfold extract_title. destruct (find "title" soup) as [t|]; [|reflexivity].
  destruct (dot_string t) as [s|]; [|reflexivity].
  destruct (Py.truthy s); [apply strip_idempotent | reflexivity].
Qed.

(** X9. The author, the date and the tags that [extract_more_elements]
    returns have no whitespace at either end, and neither has the title
    unless readability supplied it. *)
Theorem metadata_is_trimmed
    (parse_html : string -> dom) (readability : string -> readability_outcome)
    (urljoin : string -> string -> string) (html base_url : string) :
  let out := extract_more_elements parse_html readability urljoin html base_url in
  Py.strip (author out) = author out
  /\ Py.strip (date out) = date out
  /\ Py.strip (tags out) = tags out
  /\ ((forall content_soup title_r,
         readability html = ReadabilitySummary content_soup title_r ->
         title_r = "") ->
      Py.strip (title out) = title out).
Proof.
  intros out. unfold out, extract_more_elements.
  destruct (readability html) as [| | content_soup title_r] eqn:E; simpl;
    (split; [apply extract_author_stripped|]);
    (split; [apply extract_date_stripped|]);
    (split; [apply extract_tags_stripped|]);
    intros H; try apply extract_title_stripped.
  rewrite (H content_soup title_r eq_refl). simpl. apply extract_title_stripped.
Qed.

Lemma metadata_is_trimmed_witness :
  Py.strip
    (title (extract_more_elements
              (fun _ => document [Tag "title" [] [Text "  A title  "]])
              (fun _ => ReadabilityRaised) (fun _ src => src)
              "<title>" "https://example.com/"))
  = "A title".
Proof.
  refine (proj2 (proj2 (proj2 (metadata_is_trimmed
            (fun _ => document [Tag "title" [] [Text "  A title  "]])
            (fun _ => ReadabilityRaised) (fun _ src => src)
            "<title>" "https://example.com/"))) _).
  intros c t E. discriminate E.
Defined.

Lemma strip_nonempty_truthy s :
  Nat.ltb 200 (Py.len (Py.strip s)) = true -> Py.truthy s = true.
Proof.
  destruct s; [discriminate | reflexivity].
Qed.

(** X10. [fetch_html] returns the rendered page and its URL exactly when
    the need-render decision is true, rendering is allowed, and the
    headless browser delivers more than 200 characters after trimming;
    in every other case it returns the fetched text (empty when the
    request failed) with the response's URL (the original URL when the
    request failed or the response has none), whatever the browser
    would have delivered. *)
Theorem fetch_html_result
    (http_get : string -> Z -> result (string * string))
    (urlparse_netloc : string -> result string)
    (playwright_render : string -> Z -> result (string * string))
    (url : string) (timeout : Z) (try_playwright_if_needed : bool) :
  let need :=
    need_render urlparse_netloc (fetched_text http_get url timeout) url in
  let rendering := usable_rendering playwright_render url timeout in
  let fetched :=
    fetch_html http_get urlparse_netloc playwright_render url timeout
      try_playwright_if_needed in
  (forall page, need = Returns true -> try_playwright_if_needed = true ->
     rendering = Some page -> fetched = Returns page)
  /\ (need = Returns false \/ try_playwright_if_needed = false
      \/ rendering = None ->
      fetched = Returns (static_result http_get url timeout)).
Proof.
  intros need rendering fetched.
  unfold need, rendering, fetched, fetch_html, fetched_text, static_result,
    usable_rendering.
  destruct (http_get url timeout) as [[resp_text resp_url]|];
    cbn [try_except bind]; rewrite need_render_value;
    cbn [try_except bind];
    match goal with
    | |- context [Returns (?a || ?b || ?c)] => destruct (a || b || c)
    end; cbn [andb];
    destruct try_playwright_if_needed;
    destruct (playwright_render url timeout) as [[rendered final]|];
    cbn [try_except bind];
    try match goal with
    | |- context [Nat.ltb 200 ?n] =>
        destruct (Nat.ltb 200 n) eqn:E;
        [rewrite (strip_nonempty_truthy _ E) | rewrite andb_false_r]
    end; cbn [andb];
    (split; [intros page H1 H2 H3 | intros [H|[H|H]]]);
    try discriminate; try reflexivity;
    try (injection H3 as <-; reflexivity);
    now destruct (Py.truthy url).
Qed.

Lemma fetch_html_result_witness :
  fetch_html (fun _ _ => Returns (replicate 900 "a", ""))
    example_netloc (fun _ _ => Returns (replicate 300 "b", "https://example.com/r"))
    "https://example.com/" 20 true
  = Returns (replicate 900 "a", "https://example.com/").
Proof.
  refine (proj2 (fetch_html_result
                   (fun _ _ => Returns (replicate 900 "a", ""))
                   example_netloc
                   (fun _ _ => Returns (replicate 300 "b", "https://example.com/r"))
                   "https://example.com/" 20%Z true) _).
  left. reflexivity.
Defined.

Section TraceFacts.

Variable metrics : font_metrics.
Variable dejavu_registered : bool.
Variable image_at : string -> image_file.
Variable pagesize : Q * Q.

Lemma draw_title_described meta c y :
  exists ops y1,
    draw_title metrics dejavu_registered pagesize meta (c, y) = (c ++ ops, y1)
    /\ title_ops metrics dejavu_registered pagesize meta y ops y1.
Proof.
  unfold draw_title, title_ops. destruct (Py.truthy (title meta)).
  - destruct (draw_lines_drawn pagesize margin (margin + 40)%Q 22
                (wrapped metrics dejavu_registered pagesize (title meta) 18)
                (c ++ [SetFont (register_dejavu dejavu_registered) 18]) y)
      as [ops [y' [E D]]].
    unfold wrapped in E. rewrite E.
    exists (SetFont (register_dejavu dejavu_registered) 18 :: ops), (y' - 6)%Q.
    rewrite <- app_assoc. split; [reflexivity|].
    exists y'. split; [|reflexivity]. now exists ops.
  - exists [], y. rewrite app_nil_r. now repeat split.
Qed.

Lemma draw_info_described meta c y :
  exists ops y1,
    draw_info dejavu_registered pagesize meta (c, y) = (c ++ ops, y1)
    /\ info_ops dejavu_registered pagesize meta y ops y1.
Proof.
  unfold draw_info, info_ops. destruct (info meta) as [|i rest].
  - exists [], y. rewrite app_nil_r. now repeat split.
  - destruct (Qltb y (margin + 20)).
    + eexists; eexists. rewrite <- !app_assoc. split; [reflexivity|].
      eexists; eexists. split; [reflexivity|].
      split; [apply drawn_on_new_page; apply drawn_none | reflexivity].
    + eexists; eexists. rewrite <- !app_assoc. split; [reflexivity|].
      eexists; eexists. split; [reflexivity|].
      split; [apply drawn_here; apply drawn_none | reflexivity].
Qed.

Lemma draw_caption_described caption c y :
  exists ops y1,
    draw_caption metrics dejavu_registered pagesize caption (c, y) = (c ++ ops, y1)
    /\ caption_ops metrics dejavu_registered pagesize caption y ops y1.
Proof.
  unfold draw_caption, caption_ops. destruct (Py.truthy caption).
  - destruct (draw_lines_drawn pagesize (margin + 4)%Q (margin + 12)%Q 11
                (wrapped metrics dejavu_registered pagesize caption 9)
                (c ++ [SetFont (register_dejavu dejavu_registered) 9]) y)
      as [ops [y' [E D]]].
    unfold wrapped in E. rewrite E.
    exists (SetFont (register_dejavu dejavu_registered) 9 :: ops), (y' - 6)%Q.
    rewrite <- app_assoc. split; [reflexivity|].
    exists y'. split; [|reflexivity]. now exists ops.
  - exists [], y. rewrite app_nil_r. now repeat split.
Qed.

Lemma draw_node_described node c y :
  exists ops y1,
    draw_node metrics dejavu_registered image_at pagesize node (c, y)
      = (c ++ ops, y1)
    /\ node_ops metrics dejavu_registered image_at pagesize node y ops y1.
Proof.
  destruct node as [txt level | txt | img_url caption];
    unfold draw_node, node_ops.
  - fold (heading_size level).
    destruct (draw_lines_drawn pagesize margin
                (margin + heading_size level * 2)%Q (heading_size level + 2)%Q
                (wrapped metrics dejavu_registered pagesize txt (heading_size level))
                (c ++ [SetFont (register_dejavu dejavu_registered)
                         (heading_size level)]) y)
      as [ops [y' [E D]]].
    unfold wrapped in E. rewrite E.
    exists (SetFont (register_dejavu dejavu_registered) (heading_size level) :: ops),
      (y' - 6)%Q.
    rewrite <- app_assoc. split; [reflexivity|].
    exists y'. split; [|reflexivity]. now exists ops.
  - destruct (draw_lines_drawn pagesize margin (margin + 11 * 2)%Q (11 + 2)%Q
                (wrapped metrics dejavu_registered pagesize txt 11)
                (c ++ [SetFont (register_dejavu dejavu_registered) 11]) y)
      as [ops [y' [E D]]].
    unfold wrapped in E. rewrite E.
    exists (SetFont (register_dejavu dejavu_registered) 11 :: ops), (y' - 8)%Q.
    rewrite <- app_assoc. split; [reflexivity|].
    exists y'. split; [|reflexivity]. now exists ops.
  - destruct (image_at img_url) as [| | iw ih drawable].
    + exists [], y. rewrite app_nil_r. now repeat split.
    + exists [], y. rewrite app_nil_r. now repeat split.
    + destruct (N.eqb iw 0).
      * exists [], y. rewrite app_nil_r. now repeat split.
      * fold (display_w pagesize iw). fold (display_h pagesize iw ih).
        destruct (Qltb (y - display_h pagesize iw ih) margin) eqn:Eb.
        -- apply Qltb_true in Eb. destruct drawable.
           ++ destruct (draw_caption_described caption
                          ((c ++ [ShowPage])
                           ++ [DrawImage margin
                                 (page_top pagesize - display_h pagesize iw ih)%Q
                                 (display_w pagesize iw) (display_h pagesize iw ih)])
                          (page_top pagesize - (display_h pagesize iw ih + 6))%Q)
                as [cops [y1 [E C]]].
              rewrite E. eexists; exists y1. rewrite <- !app_assoc.
              split; [reflexivity|].
              exists [ShowPage], (page_top pagesize).
              split; [right; now repeat split|].
              exists cops. split; [reflexivity | exact C].
           ++ exists [ShowPage], (page_top pagesize). split; [reflexivity|].
              exists [ShowPage], (page_top pagesize).
              split; [right; now repeat split | now split].
        -- apply Qltb_false in Eb. destruct drawable.
           ++ destruct (draw_caption_described caption
                          (c ++ [DrawImage margin
                                   (y - display_h pagesize iw ih)%Q
                                   (display_w pagesize iw) (display_h pagesize iw ih)])
                          (y - (display_h pagesize iw ih + 6))%Q)
                as [cops [y1 [E C]]].
              rewrite E. eexists; exists y1. rewrite <- !app_assoc.
              split; [reflexivity|].
              exists [], y.
              split; [left; now repeat split|].
              exists cops. split; [reflexivity | exact C].
           ++ exists [], y. rewrite app_nil_r. split; [reflexivity|].
              exists [], y.
              split; [left; now repeat split | now split].
Qed.

Lemma draw_nodes_described nodes : forall c y,
  exists ops y1,
    fold_left
      (fun p node => draw_node metrics dejavu_registered image_at pagesize node p)
      nodes (c, y) = (c ++ ops, y1)
    /\ nodes_ops metrics dejavu_registered image_at pagesize y nodes ops y1.
Proof.
  induction nodes as [|node rest IH]; intros c y; cbn [fold_left].
  - exists [], y. rewrite app_nil_r. split; [reflexivity | constructor].
  - destruct (draw_node_described node c y) as [ops [y1 [E D]]]. rewrite E.
    destruct (IH (c ++ ops) y1) as [ops' [y2 [E' D']]]. rewrite E'.
    exists (ops ++ ops'), y2. rewrite app_assoc.
    split; [reflexivity | econstructor; eassumption].
Qed.

(** [create_pdf] makes the calls of the title, of the metadata line and of
    the nodes in stream order, and then saves. *)
Lemma create_pdf_described meta nodes :
  exists t i n y1 y2 y3,
    create_pdf metrics dejavu_registered image_at pagesize meta nodes
      = (t ++ i ++ n) ++ [Save]
    /\ title_ops metrics dejavu_registered pagesize meta (page_top pagesize) t y1
    /\ info_ops dejavu_registered pagesize meta y1 i y2
    /\ nodes_ops metrics dejavu_registered image_at pagesize y2 nodes n y3.
Proof.
  unfold create_pdf.
  destruct (draw_title_described meta [] (page_top pagesize)) as [t [y1 [E1 T]]].
  rewrite E1.
  destruct (draw_info_described meta ([] ++ t) y1) as [i [y2 [E2 I]]].
  rewrite E2.
  destruct (draw_nodes_described nodes (([] ++ t) ++ i) y2) as [n [y3 [E3 N]]].
  rewrite E3. exists t, i, n, y1, y2, y3. simpl fst.
  rewrite <- !app_assoc. now repeat split.
Qed.

End TraceFacts.

Lemma lines_drawn_calls top x advance y lines ops y' :
  lines_drawn top x advance y lines ops y' ->
  Forall (line_call x) ops /\ drawn_text ops = lines.
Proof.
  induction 1 as [| y line rest ops y' _ [IH1 IH2]
                    | y line rest ops y' _ [IH1 IH2]].
  - split; [constructor | reflexivity].
  - split; [constructor; [reflexivity | assumption]|].
    simpl. now rewrite IH2.
  - split; [repeat (constructor; [reflexivity || exact I|]); assumption|].
    simpl. now rewrite IH2.
Qed.

Lemma drawn_text_app a b : drawn_text (a ++ b) = drawn_text a ++ drawn_text b.
Proof. apply flat_map_app. Qed.

Lemma words_of_wrapped metrics dejavu_registered pagesize text size :
  List.concat (map Py.split (wrapped metrics dejavu_registered pagesize text size))
  = Py.split text.
Proof.
  unfold wrapped, split_text_to_lines.
  rewrite wrap_loop_words by apply split_words. reflexivity.
Qed.

Section TraceInvariants.

Variable metrics : font_metrics.
Variable dejavu_registered : bool.
Variable image_at : string -> image_file.
Variable pagesize : Q * Q.

Let page_call := page_op dejavu_registered.
Let placed_image := image_placed pagesize.

(** What the invariants need of a block of text. *)
Lemma text_block_invariants size x advance text y ops y' :
  In size [18; 9; 14; 12; 11]%Q -> x = margin \/ x = (margin + 4)%Q ->
  text_block_ops metrics dejavu_registered pagesize size x advance text y ops y' ->
  Forall page_call ops /\ Forall placed_image ops
  /\ List.concat (map Py.split (drawn_text ops)) = Py.split text.
Proof.
  intros Hsize Hx [lops [-> D]].
  apply lines_drawn_calls in D as [Hc Ht]. repeat split.
  - constructor; [now split|].
    eapply Forall_impl; [|exact Hc]. intros [] H; simpl in *; try contradiction; trivial.
    now subst.
  - constructor; [exact I|].
    eapply Forall_impl; [|exact Hc]. intros [] H; simpl in *; try contradiction; trivial.
  - simpl. rewrite Ht. apply words_of_wrapped.
Qed.

Lemma title_invariants meta y ops y1 :
  title_ops metrics dejavu_registered pagesize meta y ops y1 ->
  Forall page_call ops /\ Forall placed_image ops
  /\ List.concat (map Py.split (drawn_text ops)) = Py.split (title meta).
Proof.
  unfold title_ops. destruct (Py.truthy (title meta)) eqn:E.
  - intros [y' [B _]]. eapply text_block_invariants; [| |exact B];
      simpl; auto.
  - intros [-> _]. destruct (title meta); [|discriminate].
    repeat split; constructor.
Qed.

Lemma info_invariants meta y ops y1 :
  info_ops dejavu_registered pagesize meta y ops y1 ->
  Forall page_call ops /\ Forall placed_image ops
  /\ List.concat (map Py.split (drawn_text ops))
     = Py.split (Py.join "  |  " (info meta)).
Proof.
  unfold info_ops. destruct (info meta) as [|i rest] eqn:E.
  - intros [-> _]. repeat split; constructor.
  - intros [lops [y' [-> [D _]]]].
    apply lines_drawn_calls in D as [Hc Ht]. repeat split.
    + constructor; [split; [reflexivity | simpl; auto]|].
      eapply Forall_impl; [|exact Hc].
      intros [] H; simpl in *; try contradiction; trivial. now left.
    + constructor; [exact I|].
      eapply Forall_impl; [|exact Hc].
      intros [] H; simpl in *; try contradiction; trivial.
    + simpl drawn_text. rewrite Ht. simpl. now rewrite app_nil_r.
Qed.

Lemma caption_invariants caption y ops y1 :
  caption_ops metrics dejavu_registered pagesize caption y ops y1 ->
  Forall page_call ops /\ Forall placed_image ops
  /\ List.concat (map Py.split (drawn_text ops)) = Py.split caption.
Proof.
  unfold caption_ops. destruct (Py.truthy caption) eqn:E.
  - intros [y' [B _]]. eapply text_block_invariants; [| |exact B];
      simpl; auto 10.
  - intros [-> _]. destruct caption; [|discriminate].
    repeat split; constructor.
Qed.

Lemma image_hangs_or_fits (y dh : Q) :
  (margin <= page_top pagesize - dh)%Q
  \/ ((page_top pagesize - dh)%Q = (page_top pagesize - dh)%Q
      /\ (page_top pagesize - margin < dh)%Q).
Proof.
  destruct (Qlt_le_dec (page_top pagesize - dh) margin) as [H|H].
  - right. split; [reflexivity | lra].
  - now left.
Qed.

Lemma node_invariants node y ops y1 :
  node_ops metrics dejavu_registered image_at pagesize node y ops y1 ->
  Forall page_call ops /\ Forall placed_image ops
  /\ List.concat (map Py.split (drawn_text ops)) = node_words image_at node.
Proof.
  destruct node as [txt level | txt | img_url caption]; unfold node_ops, node_words.
  - intros [y' [B _]]. eapply text_block_invariants; [| |exact B].
    + unfold heading_size. destruct (String.eqb level "h1"); simpl; auto.
    + now left.
  - intros [y' [B _]]. eapply text_block_invariants; [| |exact B];
      simpl; auto 10.
  - destruct (image_at img_url) as [| | iw ih drawable].
    + intros [-> _]. repeat split; constructor.
    + intros [-> _]. repeat split; constructor.
    + destruct (N.eqb iw 0).
      * intros [-> _]. destruct drawable; repeat split; constructor.
      * intros [brk [y0 [Hb Hd]]]. destruct drawable.
        -- destruct Hd as [cops [-> C]].
           apply caption_invariants in C as [C1 [C2 C3]].
           destruct Hb as [[-> [-> Hfit]] | [-> [-> Hover]]].
           ++ repeat split.
              ** constructor; [reflexivity | assumption].
              ** constructor; [now left | assumption].
              ** exact C3.
           ++ repeat split.
              ** constructor; [exact I|]. constructor; [reflexivity | assumption].
              ** constructor; [exact I|].
                 constructor; [apply (image_hangs_or_fits y) | assumption].
              ** exact C3.
        -- destruct Hd as [-> _].
           destruct Hb as [[-> _] | [-> _]]; repeat split;
             repeat (constructor; try exact I).
Qed.

Lemma nodes_invariants nodes y ops y1 :
  nodes_ops metrics dejavu_registered image_at pagesize y nodes ops y1 ->
  Forall page_call ops /\ Forall placed_image ops
  /\ List.concat (map Py.split (drawn_text ops))
     = flat_map (node_words image_at) nodes.
Proof.
  induction 1 as [| y node ops y1 rest ops' y2 Hn _ [IH1 [IH2 IH3]]].
  - repeat split; constructor.
  - apply node_invariants in Hn as [N1 [N2 N3]]. repeat split.
    + apply Forall_app. now split.
    + apply Forall_app. now split.
    + rewrite drawn_text_app, map_app, concat_app, N3, IH3. reflexivity.
Qed.

Lemma create_pdf_invariants meta nodes :
  exists ops,
    create_pdf metrics dejavu_registered image_at pagesize meta nodes
      = ops ++ [Save]
    /\ Forall page_call ops /\ Forall placed_image ops
    /\ List.concat (map Py.split (drawn_text ops))
       = Py.split (title meta) ++ Py.split (Py.join "  |  " (info meta))
         ++ flat_map (node_words image_at) nodes.
Proof.
  destruct (create_pdf_described metrics dejavu_registered image_at pagesize
              meta nodes) as [t [i [n [y1 [y2 [y3 [E [T [I N]]]]]]]]].
  apply title_invariants in T as [T1 [T2 T3]].
  apply info_invariants in I as [I1 [I2 I3]].
  apply nodes_invariants in N as [N1 [N2 N3]].
  exists (t ++ i ++ n). split; [exact E|]. repeat split.
  - repeat (apply Forall_app; split); assumption.
  - repeat (apply Forall_app; split); assumption.
  - rewrite !drawn_text_app, !map_app, !concat_app, T3, I3, N3. reflexivity.
Qed.

End TraceInvariants.




(** X12. Drawing follows the node stream: the calls [create_pdf] makes
    for a stream, its final [save] apart, are the beginning of the calls
    it makes for any longer stream, and neither they nor the calls that
    follow contain a [save]. *)
Theorem longer_stream_extends_document
    (metrics : font_metrics) (dejavu_registered : bool)
    (image_at : string -> image_file) (pagesize : Q * Q)
    (meta : article) (nodes more : list content_node) :
  exists ops ops',
    create_pdf metrics dejavu_registered image_at pagesize meta nodes
      = ops ++ [Save]
    /\ create_pdf metrics dejavu_registered image_at pagesize meta (nodes ++ more)
       = (ops ++ ops') ++ [Save]
    /\ ~ In Save (ops ++ ops').
Proof.
  destruct (create_pdf_invariants metrics dejavu_registered image_at pagesize
              meta (nodes ++ more)) as [all [E [Hp _]]].
  unfold create_pdf in *. rewrite fold_left_app in *.
  destruct (fold_left _ nodes _) as [c y] eqn:Ec.
  destruct (draw_nodes_described metrics dejavu_registered image_at pagesize
              more c y) as [ops' [y1 [E' _]]].
  rewrite E' in *. simpl fst in *.
  exists c, ops'. split; [reflexivity|]. split; [reflexivity|].
  apply app_inj_tail in E as [<- _].
  intros Hin. rewrite Forall_forall in Hp. exact (Hp Save Hin).
Qed.

(** X13. Before its final [save], [create_pdf] only selects the
    registered font, at 18, 9, 14, 12 or 11 points, breaks pages, draws
    text at the left margin or 4 points inside it, and draws images at
    the left margin. *)
Theorem document_calls_stay_in_style
    (metrics : font_metrics) (dejavu_registered : bool)
    (image_at : string -> image_file) (pagesize : Q * Q)
    (meta : article) (nodes : list content_node) :
  exists ops,
    create_pdf metrics dejavu_registered image_at pagesize meta nodes
      = ops ++ [Save]
    /\ Forall (page_op dejavu_registered) ops.
Proof.
  destruct (create_pdf_invariants metrics dejavu_registered image_at pagesize
              meta nodes) as [ops [E [Hp _]]].
  now exists ops.
Qed.

(** X14. No word is lost, repeated or moved in the document: the strings
    that [create_pdf] draws, split on whitespace, are the words of the
    title, of the metadata line, and of every node in stream order: the
    text of a heading or paragraph, and the caption of every image that
    is drawn. *)
Theorem document_draws_every_word
    (metrics : font_metrics) (dejavu_registered : bool)
    (image_at : string -> image_file) (pagesize : Q * Q)
    (meta : article) (nodes : list content_node) :
  List.concat
    (map Py.split
       (drawn_text
          (create_pdf metrics dejavu_registered image_at pagesize meta nodes)))
  = Py.split (title meta) ++ Py.split (Py.join "  |  " (info meta))
    ++ flat_map (node_words image_at) nodes.
Proof.
  destruct (create_pdf_invariants metrics dejavu_registered image_at pagesize
              meta nodes) as [ops [E [_ [_ Hw]]]].
  rewrite E, drawn_text_app, map_app, concat_app, Hw. simpl.
  now rewrite app_nil_r.
Qed.

(** X15. Every image is drawn with its lower edge at or above the bottom
    margin, except an image taller than the space between the top and
    bottom margins: that one is drawn from the top margin of a new page
    and runs below the bottom margin. *)
Theorem images_stay_above_bottom_margin
    (metrics : font_metrics) (dejavu_registered : bool)
    (image_at : string -> image_file) (pagesize : Q * Q)
    (meta : article) (nodes : list content_node) :
  Forall (image_placed pagesize)
    (create_pdf metrics dejavu_registered image_at pagesize meta nodes).
Proof.
  destruct (create_pdf_invariants metrics dejavu_registered image_at pagesize
              meta nodes) as [ops [E [_ [Hi _]]]].
  rewrite E. apply Forall_app. split; [exact Hi | now repeat constructor].
Qed.

Lemma split_join_newline parts :
  Py.split (Py.join newline parts) = flat_map Py.split parts.
Proof.
  induction parts as [|x rest IH]; [reflexivity|].
  destruct rest as [|y rest'].
  - simpl. now rewrite app_nil_r.
  - rewrite join_cons by discriminate.
    change (newline ++ Py.join newline (y :: rest'))%string
      with (String (ascii_of_nat 10) (Py.join newline (y :: rest'))).
    rewrite split_app_space by reflexivity.
    rewrite IH. reflexivity.
Qed.

Lemma flat_map_split_snoc_empty (l : list string) :
  flat_map Py.split (l ++ [""]) = flat_map Py.split l.
Proof. rewrite flat_map_app. simpl. now rewrite app_nil_r. Qed.

(** X16. The blank lines of the composed text carry no words and its
    final trimming removes none: split on whitespace, the composed text
    is the words of the title, of the metadata lines and of the lines of
    every node, in stream order. *)
Theorem composed_text_keeps_every_word (meta : article) :
  Py.split (full_text meta) = composed_words meta.
Proof.
  unfold full_text, composed_words.
  rewrite split_strip, split_join_newline, text_parts_split, flat_map_app.
  unfold header_parts. rewrite !flat_map_app.
  rewrite <- !app_assoc. f_equal; [|f_equal].
  - destruct (Py.truthy (title meta)) eqn:E.
    + simpl. now rewrite !app_nil_r.
    + destruct (title meta); [reflexivity | discriminate].
  - simpl. f_equal.
    induction (nodes meta) as [|n rest IH]; [reflexivity|].
    cbn [flat_map]. rewrite flat_map_app, flat_map_split_snoc_empty.
    now rewrite IH.
Qed.

Lemma endswith_iff s suffix :
  endswith s suffix = true <-> exists p, s = (p ++ suffix)%string.
Proof.
  split.
  - induction s as [|c s IH]; cbn [endswith]; intros H.
    + rewrite orb_false_r in H. apply String.eqb_eq in H. exists "". now subst.
    + apply orb_true_iff in H. destruct H as [H|H].
      * apply String.eqb_eq in H. exists "". now subst.
      * destruct (IH H) as [p ->]. now exists (String c p).
  - intros [p ->]. induction p as [|c p IH].
    + change ("" ++ suffix)%string with suffix.
      destruct suffix; cbn [endswith]; now rewrite String.eqb_refl.
    + change (String c p ++ suffix)%string with (String c (p ++ suffix)).
      cbn [endswith]. now rewrite IH, orb_true_r.
Qed.

Lemma lower_app a b : Py.lower (a ++ b) = (Py.lower a ++ Py.lower b)%string.
Proof.
  unfold Py.lower. induction a as [|c a IH]; simpl; [reflexivity|].
  now rewrite IH.
Qed.

Lemma len_app a b : String.length (a ++ b) = String.length a + String.length b.
Proof. induction a as [|c a IH]; simpl; [reflexivity | now rewrite IH]. Qed.

Lemma app_same_length_r a b c d :
  (a ++ b)%string = (c ++ d)%string -> String.length b = String.length d ->
  b = d.
Proof.
  revert c. induction a as [|x a IH]; intros c H L.
  - destruct c as [|y c]; [exact H|].
    simpl in H. apply (f_equal String.length) in H. simpl in H.
    rewrite len_app in H. lia.
  - destruct c as [|y c].
    + simpl in H. apply (f_equal String.length) in H. simpl in H.
      rewrite len_app in H. lia.
    + simpl in H. injection H as _ H. now apply (IH c).
Qed.

(** X17. Whatever path the user chose and whatever [os.path.splitext]
    returns, the text file is written to a path ending in [.txt] and the
    PDF to a path ending in [.pdf] (letter case apart), a chosen path
    that already has the extension is kept, and the two outputs never
    share a path. *)
Theorem outputs_have_their_extension
  (splitext : string -> string * string) (out_path : string) :
  endswith (Py.lower (txt_path splitext out_path)) ".txt" = true /\
  endswith (Py.lower (pdf_path splitext out_path)) ".pdf" = true /\
  (endswith (Py.lower out_path) ".txt" = true ->
   txt_path splitext out_path = out_path) /\
  (endswith (Py.lower out_path) ".pdf" = true ->
   pdf_path splitext out_path = out_path) /\
  txt_path splitext out_path <> pdf_path splitext out_path.
Proof.
  assert (T : endswith (Py.lower (txt_path splitext out_path)) ".txt" = true).
  { unfold txt_path. destruct (endswith (Py.lower out_path) ".txt") eqn:E;
      [exact E|].
    rewrite lower_app. apply endswith_iff. now eexists. }
  assert (P : endswith (Py.lower (pdf_path splitext out_path)) ".pdf" = true).
  { unfold pdf_path. destruct (endswith (Py.lower out_path) ".pdf") eqn:E;
      [exact E|].
    simpl negb. cbv iota. rewrite lower_app. apply endswith_iff. now eexists. }
  split; [exact T|]. split; [exact P|]. split; [|split].
  - intros E. unfold txt_path. now rewrite E.
  - intros E. unfold pdf_path. now rewrite E.
  - intros E. rewrite E in T.
    apply endswith_iff in T. destruct T as [p Hp].
    apply endswith_iff in P. destruct P as [q Hq].
    rewrite Hq in Hp. apply app_same_length_r in Hp; [discriminate | reflexivity].
Qed.

Lemma outputs_have_their_extension_witness :
  endswith (Py.lower "Report.TXT") ".txt" = true /\
  txt_path (fun p => (p, "")) "Report.TXT" = "Report.TXT" /\
  pdf_path (fun p => (p, "")) "Report.TXT" = "Report.TXT.pdf".
Proof.
  split; [reflexivity|].
  split; [|reflexivity].
  apply (proj1 (proj2 (proj2
    (outputs_have_their_extension (fun p => (p, "")) "Report.TXT")))).
  reflexivity.
Defined.

Lemma string_of_uint_digits d : all_digits (NilEmpty.string_of_uint d) = true.
Proof. induction d; simpl; try reflexivity; exact IHd. Qed.

Lemma app_cancel_r (a b c : string) :
  (a ++ c)%string = (b ++ c)%string -> a = b.
Proof.
  revert b. induction a as [|x a IH]; intros b H.
  - destruct b as [|y b]; [reflexivity|].
    apply (f_equal String.length) in H. simpl in H. rewrite len_app in H. lia.
  - destruct b as [|y b].
    + apply (f_equal String.length) in H. simpl in H. rewrite len_app in H. lia.
    + simpl in H. injection H as -> H. f_equal. now apply IH.
Qed.

Lemma string_of_uint_inj d d' :
  NilEmpty.string_of_uint d = NilEmpty.string_of_uint d' -> d = d'.
Proof.
  intros H. apply (f_equal NilEmpty.uint_of_string) in H.
  rewrite !NilEmpty.usu in H. now injection H.
Qed.

Lemma image_ext_choice ct : In (image_ext ct) [".jpg"; ".png"; ".gif"].
Proof.
  unfold image_ext.
  destruct (Py.contains "png" ct); [right; now left|].
  destruct (Py.contains "gif" ct); [right; right; now left | now left].
Qed.

(** X18. When [download_image_local] returns a path, the request
    succeeded, the file was written, and the path is
    [os.path.join(tmpdir, name)] for a name made of [img_], decimal
    digits and one of the extensions [.jpg], [.png], [.gif], so no
    character of the URL enters the name; and two URLs with the same
    extension get the same name exactly when the absolute values of
    their hashes agree modulo [10**9]. *)
Theorem downloaded_image_name
  (py_hash : string -> Z) (image_get : string -> result (string * list string))
  (path_join : string -> string -> string)
  (write_file : string -> list string -> bool)
  (url tmpdir path : string) :
  download_image_local py_hash image_get path_join write_file url tmpdir
    = Some path ->
  (exists ct chunks digits ext,
     image_get url = Returns (ct, chunks) /\
     write_file path chunks = true /\
     path = path_join tmpdir ("img_" ++ digits ++ ext)%string /\
     all_digits digits = true /\
     In ext [".jpg"; ".png"; ".gif"]) /\
  (forall url' ext,
     image_name py_hash url ext = image_name py_hash url' ext <->
     (Z.abs (py_hash url) mod 10 ^ 9 = Z.abs (py_hash url') mod 10 ^ 9)%Z).
Proof.
  intros H. split.
  - unfold download_image_local in H.
    destruct (image_get url) as [[ct chunks]|] eqn:G; [|discriminate].
    cbv zeta in H.
    destruct (write_file _ chunks) eqn:W; [|discriminate].
    injection H as H. exists ct, chunks.
    eexists. exists (image_ext ct).
    split; [reflexivity|]. split; [now rewrite <- H|].
    split; [symmetry; exact H|].
    split; [apply string_of_uint_digits | apply image_ext_choice].
  - intros url' ext. unfold image_name. split.
    + intros E. simpl in E. injection E as E.
      apply app_cancel_r, string_of_uint_inj, DecimalN.Unsigned.to_uint_inj in E.
      apply Z2N.inj in E; [exact E | |];
        apply Z.mod_pos_bound; reflexivity.
    + intros E. now rewrite E.
Qed.

Lemma downloaded_image_name_witness :
  download_image_local (fun _ => (-7)%Z) (fun _ => Returns ("image/png", []))
    (fun a b => a ++ "/" ++ b)%string (fun _ _ => true)
    "http://example.com/a.png" "/tmp/x" = Some "/tmp/x/img_7.png" /\
  exists ct chunks digits ext,
    Returns ("image/png", @nil string) = Returns (ct, chunks) /\
    true = true /\
    "/tmp/x/img_7.png" = ("/tmp/x" ++ "/" ++ "img_" ++ digits ++ ext)%string /\
    all_digits digits = true /\
    In ext [".jpg"; ".png"; ".gif"].
Proof.
  split; [reflexivity|].
  exact (proj1 (downloaded_image_name (fun _ => (-7)%Z)
                  (fun _ => Returns ("image/png", []))
                  (fun a b => a ++ "/" ++ b)%string (fun _ _ => true)
                  "http://example.com/a.png" "/tmp/x" "/tmp/x/img_7.png"
                  eq_refl)).
Defined.
